(** * forestcover-geospatial-pipeline: the grid tiler and the windowed
      statistics of [src/calculate_raster_stats.py]

    Conventions of the embedding.
    - Python integers are [Z].  [math.ceil(a / b)] on integers is the exact
      ceiling of the quotient (the true division goes through a float64,
      which is exact far beyond any raster dimension); a zero divisor raises
      [ZeroDivisionError].
    - A float64 is either [NaN] or a finite value, idealised as an exact
      rational: conversions of integer pixels, comparisons, minimum, maximum
      and sums of pixels are exact in float64 for integer rasters, the
      quotient of the mean and the final rounding are taken in exact
      arithmetic instead of to the nearest double.
      At an exact tie between two hundredths the float computation can take
      the other neighbour; statements about the mean say "a number of
      hundredths at most half a hundredth away", which holds of both.
    - A window array is a list of rows of pixels of the raster's integer
      dtype (the raster of this repository is [uint16]).
    - [rasterio.windows.Window] rejects a negative width or height with
      [ValueError], so [create_windows] raises when the last row or column
      of the grid would start beyond the raster.
    - The file written by the script is the string of everything passed to
      [file.write]; what the script prints on the console is left out. *)

From Stdlib Require Import String Ascii DecimalString.
From Stdlib Require Import ZArith QArith Qround Qminmax Qabs List Lia Lqa Bool.
From Stdlib Require Import Permutation DecimalZ DecimalPos.
Import ListNotations.

Open Scope Z_scope.

(** ** Exceptions and fallible results *)

Inductive exn : Type :=
| ZeroDivisionError
| ValueError
| RasterioIOError.

Inductive result (A : Type) : Type :=
| Ok (a : A)
| Raise (e : exn).

Arguments Ok {A} a.
Arguments Raise {A} e.

Definition bind {A B : Type} (r : result A) (k : A -> result B) : result B :=
  match r with
  | Ok a => k a
  | Raise e => Raise e
  end.

Notation "x <- r ;; k" := (bind r (fun x => k))
  (at level 61, r at next level, right associativity).

(** ** Numbers and arrays *)

Inductive float64 : Type :=
| NaN
| Fin (q : Q).

(** Two-dimensional arrays, as the list of their rows. *)
Definition ndarray (A : Type) : Type := list (list A).

(** Promotion of an integer pixel to float64. *)
Definition of_int (p : Z) : float64 := Fin (inject_Z p).

(** ** Windows (rasterio.windows.Window) *)

Record Window : Type := mkWindow {
  col_off : Z;
  row_off : Z;
  width : Z;
  height : Z
}.

(** The constructor [Window(col_off=.., row_off=.., width=.., height=..)]:
    rasterio validates the two lengths and raises [ValueError] on a negative
    width or height; the offsets are not constrained. *)
Definition new_Window (col_off_val row_off_val width_val height_val : Z)
    : result Window :=
  if (width_val <? 0) || (height_val <? 0) then Raise ValueError
  else Ok (mkWindow col_off_val row_off_val width_val height_val).

(** The part of [rasterio.DatasetReader] used by the script: the extent, the
    nodata sentinel ([None] when the raster declares none) and the windowed
    read of a band, which may raise.  A raster has at least one row and one
    column of pixels, so the two dimensions are kept as positive numbers and
    [height], [width] give them as Python integers. *)
Module Dataset.
Record t : Type := mk {
  pixel_rows : positive;
  pixel_cols : positive;
  nodata : option float64;
  read : Z -> Window -> result (ndarray Z)
}.

Definition height (dataset : t) : Z := Z.pos (pixel_rows dataset).
Definition width (dataset : t) : Z := Z.pos (pixel_cols dataset).
End Dataset.

Arguments Dataset.height : simpl never.
Arguments Dataset.width : simpl never.

(** ** The grid tiler *)

(** The ceiling of the quotient [a / b]. *)
Definition ceiling (a b : Z) : Z := Qceiling (inject_Z a / inject_Z b).

(** [math.ceil(a / b)] for Python integers [a], [b]: the true division
    raises on a zero divisor. *)
Definition ceil_div (a b : Z) : result Z :=
  if b =? 0 then Raise ZeroDivisionError else Ok (ceiling a b).

(** [range(n)]: empty for [n <= 0]. *)
Definition range (n : Z) : list Z := map Z.of_nat (seq 0 (Z.to_nat n)).

(** A [for] loop over integers whose body may raise: the first exception
    leaves the loop. *)
Fixpoint for_range {S : Type} (body : S -> Z -> result S) (l : list Z) (s : S)
    : result S :=
  match l with
  | [] => Ok s
  | i :: rest => s' <- body s i ;; for_range body rest s'
  end.

(** Body of the inner loop of [create_windows]: the window of grid row [i]
    and grid column [j], built by rasterio's constructor. *)
Definition window_at (dataset : Dataset.t) (nb_of_rows nb_of_cols : Z)
    (tile_height tile_width : Z) (i j : Z) : result Window :=
  let row_off_val := i * tile_height in
  let col_off_val := j * tile_width in
  let height_val :=
    if i =? nb_of_rows - 1 then Dataset.height dataset - row_off_val
    else tile_height in
  let width_val :=
    if j =? nb_of_cols - 1 then Dataset.width dataset - col_off_val
    else tile_width in
  new_Window col_off_val row_off_val width_val height_val.

(** The two nested [for] loops, threading [windows_list] and appending one
    window per iteration; an exception of the constructor ends them. *)
Definition create_windows_loop (dataset : Dataset.t) (nb_of_rows nb_of_cols : Z)
    (tile_height tile_width : Z) : result (list Window) :=
  for_range
    (fun windows_list i =>
       for_range
         (fun windows_list j =>
            window <- window_at dataset nb_of_rows nb_of_cols
                        tile_height tile_width i j ;;
            Ok (windows_list ++ [window]))
         (range nb_of_cols) windows_list)
    (range nb_of_rows) [].

Definition create_windows (dataset : Dataset.t) (nb_of_rows nb_of_cols : Z)
    : result (list Window) :=
  tile_height <- ceil_div (Dataset.height dataset) nb_of_rows ;;
  tile_width <- ceil_div (Dataset.width dataset) nb_of_cols ;;
  create_windows_loop dataset nb_of_rows nb_of_cols tile_height tile_width.

(** ** Cells of a window, partitions *)

(** Pixel [(r, c)] lies in window [w]. *)
Definition in_window (w : Window) (r c : Z) : Prop :=
  row_off w <= r < row_off w + height w /\
  col_off w <= c < col_off w + width w.

Definition in_extent (e : Dataset.t) (r c : Z) : Prop :=
  0 <= r < Dataset.height e /\ 0 <= c < Dataset.width e.

(** The windows of [ws] cover exactly the pixels of [e]. *)
Definition covers (e : Dataset.t) (ws : list Window) : Prop :=
  forall r c, in_extent e r c <-> exists w, In w ws /\ in_window w r c.

(** Windows at different positions of [ws] share no pixel. *)
Definition pairwise_disjoint (ws : list Window) : Prop :=
  forall k1 k2 w1 w2 r c,
    k1 <> k2 ->
    nth_error ws k1 = Some w1 -> nth_error ws k2 = Some w2 ->
    ~ (in_window w1 r c /\ in_window w2 r c).

Definition partitions (e : Dataset.t) (ws : list Window) : Prop :=
  covers e ws /\ pairwise_disjoint ws.

(** The Window invariant of the data model. *)
Definition well_formed (e : Dataset.t) (w : Window) : Prop :=
  0 <= row_off w /\ 0 <= col_off w /\ 0 <= height w /\ 0 <= width w /\
  row_off w + height w <= Dataset.height e /\
  col_off w + width w <= Dataset.width e.

(** The last row and the last column of the grid start inside the raster (or
    at its very edge). *)
Definition last_offsets_fit (e : Dataset.t) (nb_of_rows nb_of_cols : Z) : Prop :=
  (nb_of_rows - 1) * ceiling (Dataset.height e) nb_of_rows <= Dataset.height e /\
  (nb_of_cols - 1) * ceiling (Dataset.width e) nb_of_cols <= Dataset.width e.

(** The rectangle asked of the constructor for grid position [(i, j)], and
    the rectangles of the whole grid in the order of the loops. *)
Definition tile_at (dataset : Dataset.t) (nb_of_rows nb_of_cols : Z)
    (tile_height tile_width : Z) (i j : Z) : Window :=
  mkWindow (j * tile_width) (i * tile_height)
    (if j =? nb_of_cols - 1 then Dataset.width dataset - j * tile_width
     else tile_width)
    (if i =? nb_of_rows - 1 then Dataset.height dataset - i * tile_height
     else tile_height).

Definition tiles (dataset : Dataset.t) (nb_of_rows nb_of_cols : Z)
    (tile_height tile_width : Z) : list Window :=
  flat_map
    (fun i => map (tile_at dataset nb_of_rows nb_of_cols tile_height tile_width i)
                  (range nb_of_cols))
    (range nb_of_rows).

(** The test of the constructor on a rectangle. *)
Definition accepted (w : Window) : bool :=
  negb ((width w <? 0) || (height w <? 0)).

(** ** numpy, on the arrays of this script *)

Module np.
(** One element of [array == value]: an integer pixel against the nodata
    value of the dataset.  Comparing with [None] is [False], and so is
    comparing with a NaN. *)
Definition eq_scalar (p : Z) (value : option float64) : bool :=
  match value with
  | Some (Fin q) => Qeq_bool (inject_Z p) q
  | Some NaN => false
  | None => false
  end.

(** [array == value], elementwise. *)
Definition eq (array : ndarray Z) (value : option float64) : ndarray bool :=
  map (map (fun p => eq_scalar p value)) array.

(** [np.where(cond, np.nan, array)]: a new float64 array. *)
Definition where_nan (cond : ndarray bool) (array : ndarray Z)
    : ndarray float64 :=
  map (fun row : list bool * list Z =>
         map (fun cp : bool * Z => if fst cp then NaN else of_int (snd cp))
             (combine (fst row) (snd row)))
      (combine cond array).

Definition isnan_scalar (x : float64) : bool :=
  match x with
  | NaN => true
  | Fin _ => false
  end.

Definition isnan (a : ndarray float64) : ndarray bool :=
  map (map isnan_scalar) a.

(** [np.all]: true on an array without elements. *)
Definition all (a : ndarray bool) : bool :=
  forallb (fun b => b) (concat a).

(** The elements that are not NaN, in order. *)
Definition finite (a : ndarray float64) : list Q :=
  flat_map (fun x => match x with NaN => [] | Fin q => [q] end) (concat a).

(** [np.nanmin]: raises on an array without elements; NaN (with a warning)
    when all elements are NaN. *)
Definition nanmin (a : ndarray float64) : result float64 :=
  match concat a with
  | [] => Raise ValueError
  | _ :: _ =>
      Ok (match finite a with
          | [] => NaN
          | q :: qs => Fin (fold_left Qmin qs q)
          end)
  end.

Definition nanmax (a : ndarray float64) : result float64 :=
  match concat a with
  | [] => Raise ValueError
  | _ :: _ =>
      Ok (match finite a with
          | [] => NaN
          | q :: qs => Fin (fold_left Qmax qs q)
          end)
  end.

(** [np.nanmean]: the sum of the elements that are not NaN over their
    number; NaN (with a warning) when there is none. *)
Definition nanmean (a : ndarray float64) : float64 :=
  match finite a with
  | [] => NaN
  | q :: qs =>
      Fin (Qdiv (fold_left Qplus (q :: qs) 0%Q)
                (inject_Z (Z.of_nat (List.length (q :: qs)))))
  end.

(** [np.rint] on a finite value: to the nearest integer, halves to even. *)
Definition rint (q : Q) : Z :=
  let f := Qfloor q in
  match Qcompare (Qminus q (inject_Z f)) (1 # 2) with
  | Lt => f
  | Gt => f + 1
  | Eq => if Z.even f then f else f + 1
  end.
End np.

(** [round(x, ndigits)] on a float64 (for [0 <= ndigits]): scale, round to
    the nearest integer, scale back. *)
Definition round (x : float64) (ndigits : Z) : float64 :=
  match x with
  | NaN => NaN
  | Fin q =>
      let scale := inject_Z (10 ^ ndigits) in
      Fin (Qdiv (inject_Z (np.rint (Qmult q scale))) scale)
  end.

(** ** [str] *)

Open Scope string_scope.

Definition newline : string := String (ascii_of_nat 10) EmptyString.

(** [str] of an integer. *)
Definition str_int (z : Z) : string := NilZero.string_of_int (Z.to_int z).

(** The decimal digits of [r / d] after the point, for [0 <= r < d], until
    the expansion ends. *)
Fixpoint frac_digits (fuel : nat) (r d : Z) : string :=
  match fuel with
  | O => ""
  | S fuel' =>
      if (r =? 0)%Z then ""
      else str_int (r * 10 / d) ++ frac_digits fuel' (r * 10 mod d) d
  end.

(** [str] of a float64: the shortest decimal that reads back as the same
    float.  For the values this script prints, integers and hundredths, that
    is the decimal expansion itself, with at least one digit after the
    point (a negative zero and the exponent form of very large or very small
    values do not arise from pixel statistics and are not modelled). *)
Definition str_float (x : float64) : string :=
  match x with
  | NaN => "nan"
  | Fin q =>
      let d := Z.pos (Qden q) in
      let a := Z.abs (Qnum q) in
      (if (Qnum q <? 0)%Z then "-" else "")
      ++ str_int (a / d) ++ "."
      ++ (if (a mod d =? 0)%Z then "0" else frac_digits 17 (a mod d) d)
  end.

(** [str] of a statistic: [None] or a float64. *)
Definition str (v : option float64) : string :=
  match v with
  | None => "None"
  | Some x => str_float x
  end.

(** ** The script of [calculate_raster_stats.py] *)

Record Stats : Type := mkStats {
  min_cover : option float64;
  max_cover : option float64;
  avg_cover : option float64
}.

(** The three statistics of a masked array (the [if]/[else] of the loop). *)
Definition cover_stats (array_masked : ndarray float64) : result Stats :=
  if np.all (np.isnan array_masked) then Ok (mkStats None None None)
  else
    mn <- np.nanmin array_masked ;;
    mx <- np.nanmax array_masked ;;
    Ok (mkStats (Some mn) (Some mx) (Some (round (np.nanmean array_masked) 2))).

(** Masking of the nodata pixels followed by the statistics. *)
Definition window_stats (array : ndarray Z) (nodata_value : option float64)
    : result Stats :=
  let array_masked := np.where_nan (np.eq array nodata_value) array in
  cover_stats array_masked.

(** What the loop carries from one window to the next: the running [id] and
    the contents of the file written so far. *)
Record state : Type := mkState {
  id : Z;
  file : string
}.

Definition columns : string :=
  "array,minimum_cover,maximum_cover,average_cover".

(** The line written for one window. *)
Definition csv_row (id : Z) (s : Stats) : string :=
  let array_id := "array_" ++ str_int id in
  array_id ++ "," ++ str (min_cover s) ++ "," ++ str (max_cover s) ++ ","
  ++ str (avg_cover s) ++ newline.

(** One iteration of [for wind in windows]: a failing read leaves the state
    as it is ([continue]); otherwise one line is written and [id] moves on.
    An exception outside the [try] would leave the loop. *)
Definition loop_body (dataset : Dataset.t) (nodata_value : option float64)
    (st : state) (wind : Window) : result state :=
  match Dataset.read dataset 1 wind with
  | Raise _ => Ok st
  | Ok array =>
      s <- window_stats array nodata_value ;;
      Ok (mkState (id st + 1) (file st ++ csv_row (id st) s))
  end.

Fixpoint for_each (body : state -> Window -> result state)
    (windows : list Window) (st : state) : result state :=
  match windows with
  | [] => Ok st
  | wind :: rest => st' <- body st wind ;; for_each body rest st'
  end.

(** The body of [with rasterio.open(url) as dataset], from a list of windows
    on: the contents of [treecover_stats.csv]. *)
Definition write_stats (dataset : Dataset.t) (windows : list Window)
    : result string :=
  let nodata_value := Dataset.nodata dataset in
  let st := mkState 1 (columns ++ newline) in
  st <- for_each (loop_body dataset nodata_value) windows st ;;
  Ok (file st).

Definition main (dataset : Dataset.t) : result string :=
  windows <- create_windows dataset 8 8 ;;
  write_stats dataset windows.

Close Scope string_scope.

(** ** The script of [inspect_and_plot_raster_data.py]

    The three values it prints for its window: no guard for an array of NaN
    only. *)
Definition inspect_values (array : ndarray Z) (nodata_value : option float64)
    : result (float64 * float64 * float64) :=
  let array_masked := np.where_nan (np.eq array nodata_value) array in
  mn <- np.nanmin array_masked ;;
  mx <- np.nanmax array_masked ;;
  Ok (mn, mx, round (np.nanmean array_masked) 2).

(** ** Vocabulary of the statements *)

(** The pixels of a window that differ from the nodata value, in order. *)
Definition valid_pixels (array : ndarray Z) (nodata_value : option float64)
    : list Z :=
  filter (fun p => negb (np.eq_scalar p nodata_value)) (concat array).

Definition is_minimum (m : Z) (l : list Z) : Prop :=
  In m l /\ forall x, In x l -> m <= x.

Definition is_maximum (m : Z) (l : list Z) : Prop :=
  In m l /\ forall x, In x l -> x <= m.

Definition sum (l : list Z) : Z := fold_right Z.add 0 l.

(** The arithmetic mean of a list of integers. *)
Definition mean_of (l : list Z) : Q :=
  Qdiv (inject_Z (sum l)) (inject_Z (Z.of_nat (length l))).

(** [r] is [x] rounded to two decimal places: a number of hundredths at most
    half a hundredth away from [x]. *)
Definition rounded_to_2dp (x r : Q) : Prop :=
  (exists k : Z, Qeq r (Qdiv (inject_Z k) (inject_Z 100))) /\
  Qle (Qabs (Qminus r x)) (1 # 200).

(** The arrays of the windows whose read succeeds, in the order of the
    windows. *)
Definition read_arrays (dataset : Dataset.t) (windows : list Window)
    : list (ndarray Z) :=
  flat_map (fun wind => match Dataset.read dataset 1 wind with
                        | Ok array => [array]
                        | Raise _ => []
                        end) windows.

(** The lines [array_<id>,<min>,<max>,<mean>] of a list of statistics, with
    consecutive ids from [k] on. *)
Fixpoint rows_from (k : Z) (stats : list Stats) : string :=
  match stats with
  | [] => EmptyString
  | s :: rest =>
      ("array_" ++ str_int k ++ "," ++ str (min_cover s) ++ ","
       ++ str (max_cover s) ++ "," ++ str (avg_cover s) ++ newline
       ++ rows_from (k + 1) rest)%string
  end.

(** A raster of 10 x 10 pixels with nodata 255 whose top right quarter
    cannot be read. *)
Definition raster_failing : Dataset.t :=
  Dataset.mk 10 10 (Some (Fin (inject_Z 255)))
    (fun _ wind =>
       if (row_off wind =? 0) && (col_off wind =? 5)
       then Raise RasterioIOError
       else Ok [[col_off wind; 255]; [7; row_off wind]]).

(** Sample rasters of 5 x 5 and 10 x 10 pixels whose reads all fail; only
    their extent matters to the tiler. *)
Definition raster_5x5 : Dataset.t :=
  Dataset.mk 5 5 None (fun _ _ => Raise RasterioIOError).

Definition raster_10x10 : Dataset.t :=
  Dataset.mk 10 10 None (fun _ _ => Raise RasterioIOError).

(** The nine windows of the 10 x 10 raster cut 3 x 3, row by row. *)
Definition grid_10x10_3x3 : list Window :=
  [mkWindow 0 0 4 4; mkWindow 4 0 4 4; mkWindow 8 0 2 4;
   mkWindow 0 4 4 4; mkWindow 4 4 4 4; mkWindow 8 4 2 4;
   mkWindow 0 8 4 2; mkWindow 4 8 4 2; mkWindow 8 8 2 2].

(** ** The control flow of [inspect_and_plot_raster_data.py]

    The script reads one fixed window inside a [try]; a failing read leaves
    [array = None] and the script ends without values.  Otherwise the three
    values are computed outside the [try], so an exception there is not
    caught.  The plot and its upload, which follow, are left out. *)
Definition inspect_window : Window := mkWindow 0 0 5000 5000.

Definition inspect_main (dataset : Dataset.t)
    : result (option (float64 * float64 * float64)) :=
  let nodata_value := Dataset.nodata dataset in
  let array :=
    match Dataset.read dataset 1 inspect_window with
    | Ok array => Some array
    | Raise _ => None
    end in
  match array with
  | Some array => v <- inspect_values array nodata_value ;; Ok (Some v)
  | None => Ok None
  end.

(** ** More vocabulary *)

(** The read of the window succeeds. *)
Definition readable (dataset : Dataset.t) (wind : Window) : bool :=
  match Dataset.read dataset 1 wind with
  | Ok _ => true
  | Raise _ => false
  end.

(** Number of occurrences of a character in a string. *)
Fixpoint count_char (c : ascii) (s : string) : nat :=
  match s with
  | EmptyString => O
  | String a rest => ((if Ascii.eqb a c then 1 else 0) + count_char c rest)%nat
  end.

Definition comma : ascii := ascii_of_nat 44.
Definition linefeed : ascii := ascii_of_nat 10.
Definition point : ascii := ascii_of_nat 46.

(** Number of pixels of a window, and of a list of windows. *)
Definition area (w : Window) : Z := height w * width w.

Definition total_area (ws : list Window) : Z :=
  fold_right (fun w acc => area w + acc) 0 ws.

(** ** Vocabulary for the sentinel and for the lines of the file *)

(** The pixel differs from the sentinel, as numbers. *)
Definition differs_from (sentinel : Q) (p : Z) : bool :=
  if Qeq_dec (inject_Z p) sentinel then false else true.

(** The pixels of a window that are not the sentinel, in order. *)
Definition non_sentinel_pixels (array : ndarray Z) (sentinel : Q) : list Z :=
  filter (differs_from sentinel) (concat array).



(** A raster of 64 x 64 pixels with nodata 255 of which only the top row of
    8 x 8 pixel windows can be read; one of those holds nodata only. *)
Definition raster_64x64 : Dataset.t :=
  Dataset.mk 64 64 (Some (Fin (inject_Z 255)))
    (fun _ wind =>
       if row_off wind =? 0
       then (if col_off wind =? 24 then Ok [[255]]
             else Ok [[col_off wind; 255]])
       else Raise RasterioIOError).

Definition csv_64x64 : string :=
  ("array,minimum_cover,maximum_cover,average_cover" ++ newline
   ++ "array_1,0.0,0.0,0.0" ++ newline
   ++ "array_2,8.0,8.0,8.0" ++ newline
   ++ "array_3,16.0,16.0,16.0" ++ newline
   ++ "array_4,None,None,None" ++ newline
   ++ "array_5,32.0,32.0,32.0" ++ newline
   ++ "array_6,40.0,40.0,40.0" ++ newline
   ++ "array_7,48.0,48.0,48.0" ++ newline
   ++ "array_8,56.0,56.0,56.0" ++ newline)%string.

(** * Proofs *)

(** ** Ceiling division *)

Lemma ceiling_floor a b : 0 < b -> ceiling a b = - ((- a) / b).
Proof.
  intros Hb. destruct b as [|pb|pb]; try lia.
  unfold ceiling, Qceiling, Qfloor, Qdiv, Qinv, Qmult, Qopp, inject_Z. simpl.
  rewrite Z.mul_1_r. reflexivity.
Qed.

(** For a positive divisor it is the least [q] with [a <= q * b]. *)
Lemma ceiling_spec a b :
  0 < b -> (ceiling a b - 1) * b < a <= ceiling a b * b.
Proof.
  intros Hb. rewrite (ceiling_floor a b Hb).
  pose proof (Z.div_mod (- a) b ltac:(lia)) as Hdm.
  pose proof (Z.mod_pos_bound (- a) b Hb) as Hm.
  nia.
Qed.

Lemma ceiling_pos a b : 0 < a -> 0 < b -> 0 < ceiling a b.
Proof.
  intros Ha Hb. pose proof (ceiling_spec a b Hb) as H. nia.
Qed.

Lemma ceil_div_ok a b : b <> 0 -> ceil_div a b = Ok (ceiling a b).
Proof.
  intros Hb. unfold ceil_div.
  destruct (Z.eqb_spec b 0); [contradiction | reflexivity].
Qed.

Lemma height_pos ds : 0 < Dataset.height ds.
Proof. unfold Dataset.height. lia. Qed.

Lemma width_pos ds : 0 < Dataset.width ds.
Proof. unfold Dataset.width. lia. Qed.

(** ** The loops and the constructor *)

Lemma window_at_tile ds nr nc th tw i j :
  window_at ds nr nc th tw i j
  = if accepted (tile_at ds nr nc th tw i j)
    then Ok (tile_at ds nr nc th tw i j) else Raise ValueError.
Proof.
  unfold window_at, new_Window, accepted, tile_at.
  cbn [width height]. now destruct (_ || _).
Qed.

(** A loop that appends one constructed window per iteration returns all of
    them when the constructor accepts each, and raises otherwise. *)
Lemma for_range_append (f : Z -> result Window) (g : Z -> Window) l acc :
  (forall j, f j = if accepted (g j) then Ok (g j) else Raise ValueError) ->
  for_range (fun acc j => w <- f j ;; Ok (acc ++ [w])) l acc
  = if forallb accepted (map g l) then Ok (acc ++ map g l)
    else Raise ValueError.
Proof.
  intros Hf. revert acc. induction l as [|j l IH]; intros acc.
  - simpl. now rewrite app_nil_r.
  - cbn [for_range map forallb]. rewrite Hf.
    destruct (accepted (g j)); cbn [bind andb]; [|reflexivity].
    rewrite IH. destruct (forallb accepted (map g l)); [|reflexivity].
    now rewrite <- app_assoc.
Qed.

Lemma for_range_rows (row : Z -> list Window)
    (body : list Window -> Z -> result (list Window)) l acc :
  (forall acc i,
     body acc i = if forallb accepted (row i) then Ok (acc ++ row i)
                  else Raise ValueError) ->
  for_range body l acc
  = if forallb accepted (flat_map row l) then Ok (acc ++ flat_map row l)
    else Raise ValueError.
Proof.
  intros Hb. revert acc. induction l as [|i l IH]; intros acc.
  - simpl. now rewrite app_nil_r.
  - cbn [for_range flat_map]. rewrite Hb, forallb_app.
    destruct (forallb accepted (row i)); cbn [bind andb]; [|reflexivity].
    rewrite IH. destruct (forallb accepted (flat_map row l)); [|reflexivity].
    now rewrite <- app_assoc.
Qed.

(** The loops return the rectangles of the grid when the constructor
    accepts them all, and raise [ValueError] otherwise. *)
Lemma create_windows_loop_tiles ds nr nc th tw :
  create_windows_loop ds nr nc th tw
  = if forallb accepted (tiles ds nr nc th tw)
    then Ok (tiles ds nr nc th tw) else Raise ValueError.
Proof.
  unfold create_windows_loop, tiles.
  rewrite (for_range_rows
             (fun i => map (tile_at ds nr nc th tw i) (range nc))).
  - reflexivity.
  - intros acc i.
    apply (for_range_append _ (tile_at ds nr nc th tw i)).
    intros j. apply window_at_tile.
Qed.

Lemma create_windows_tiles ds nr nc :
  nr <> 0 -> nc <> 0 ->
  create_windows ds nr nc
  = if forallb accepted
         (tiles ds nr nc (ceiling (Dataset.height ds) nr)
                (ceiling (Dataset.width ds) nc))
    then Ok (tiles ds nr nc (ceiling (Dataset.height ds) nr)
                   (ceiling (Dataset.width ds) nc))
    else Raise ValueError.
Proof.
  intros Hr Hc. unfold create_windows.
  rewrite (ceil_div_ok _ nr Hr), (ceil_div_ok _ nc Hc). cbn [bind].
  apply create_windows_loop_tiles.
Qed.

(** What a returned list is. *)
Lemma create_windows_Ok_inv ds nr nc ws :
  create_windows ds nr nc = Ok ws ->
  nr <> 0 /\ nc <> 0 /\
  ws = tiles ds nr nc (ceiling (Dataset.height ds) nr)
             (ceiling (Dataset.width ds) nc) /\
  forallb accepted ws = true.
Proof.
  intros Hok.
  assert (Hr : nr <> 0).
  { intros ->. unfold create_windows, ceil_div in Hok. discriminate. }
  assert (Hc : nc <> 0).
  { intros ->. unfold create_windows in Hok.
    rewrite (ceil_div_ok _ nr Hr) in Hok. discriminate. }
  rewrite (create_windows_tiles _ _ _ Hr Hc) in Hok.
  destruct (forallb accepted _) eqn:Hacc; [|discriminate].
  injection Hok as <-. repeat split; assumption.
Qed.

(** ** Ranges and lookups in the grid *)

Lemma range_length n : length (range n) = Z.to_nat n.
Proof. unfold range. now rewrite length_map, length_seq. Qed.

Lemma range_nth n (i : nat) :
  (i < Z.to_nat n)%nat -> nth_error (range n) i = Some (Z.of_nat i).
Proof.
  intros Hi. unfold range.
  rewrite nth_error_map, nth_error_seq.
  destruct (Nat.ltb_spec i (Z.to_nat n)); [reflexivity | lia].
Qed.

Lemma range_In n x : In x (range n) <-> 0 <= x < n.
Proof.
  unfold range. rewrite in_map_iff. split.
  - intros [k [<- Hk]]. apply in_seq in Hk. lia.
  - intros Hx. exists (Z.to_nat x). split; [lia | apply in_seq; lia].
Qed.

Lemma flat_map_blocks_length {A B : Type} (f : A -> list B) (n : nat) l :
  (forall x, length (f x) = n) -> length (flat_map f l) = (length l * n)%nat.
Proof.
  intros Hf. induction l as [|x l IH]; simpl; [reflexivity|].
  now rewrite length_app, Hf, IH.
Qed.

Lemma flat_map_blocks_nth {A B : Type} (f : A -> list B) (n : nat) l i j :
  (forall x, length (f x) = n) -> (j < n)%nat ->
  nth_error (flat_map f l) (i * n + j)
  = match nth_error l i with
    | Some x => nth_error (f x) j
    | None => None
    end.
Proof.
  intros Hf Hj. revert i. induction l as [|x l IH]; intros i.
  - simpl flat_map. rewrite !nth_error_nil. reflexivity.
  - destruct i as [|i]; simpl.
    + apply nth_error_app1. now rewrite Hf.
    + rewrite nth_error_app2 by (rewrite Hf; lia).
      rewrite Hf. replace (n + i * n + j - n)%nat with (i * n + j)%nat by lia.
      apply IH.
Qed.

Section Grid.
Variable ds : Dataset.t.
Variables nr nc th tw : Z.

Let grid := tiles ds nr nc th tw.

Lemma grid_length : Z.of_nat (length grid) = Z.max 0 nr * Z.max 0 nc.
Proof.
  subst grid. unfold tiles.
  rewrite (flat_map_blocks_length _ (Z.to_nat nc))
    by (intros; now rewrite length_map, range_length).
  rewrite range_length. lia.
Qed.

Lemma grid_nth i j :
  0 <= i < nr -> 0 <= j < nc ->
  nth_error grid (Z.to_nat (i * nc + j)) = Some (tile_at ds nr nc th tw i j).
Proof.
  intros Hi Hj. subst grid. unfold tiles.
  replace (Z.to_nat (i * nc + j))
    with (Z.to_nat i * Z.to_nat nc + Z.to_nat j)%nat by nia.
  rewrite (flat_map_blocks_nth _ (Z.to_nat nc))
    by (try (intros; now rewrite length_map, range_length); lia).
  rewrite range_nth by lia.
  rewrite nth_error_map, range_nth by lia.
  simpl. now rewrite !Z2Nat.id by lia.
Qed.

Lemma grid_In w :
  In w grid <->
  exists i j, 0 <= i < nr /\ 0 <= j < nc /\ w = tile_at ds nr nc th tw i j.
Proof.
  subst grid. unfold tiles. rewrite in_flat_map. split.
  - intros [i [Hi Hw]]. apply in_map_iff in Hw as [j [<- Hj]].
    exists i, j. now rewrite <- !range_In.
  - intros [i [j [Hi [Hj ->]]]]. exists i. split; [now apply range_In|].
    apply in_map. now apply range_In.
Qed.

(** Every position of the grid is some row [i] and column [j]. *)
Lemma grid_nth_inv k w :
  nth_error grid k = Some w ->
  exists i j, 0 <= i < nr /\ 0 <= j < nc /\
    Z.of_nat k = i * nc + j /\ w = tile_at ds nr nc th tw i j.
Proof.
  intros Hk.
  assert (Hlen : (k < length grid)%nat)
    by (apply nth_error_Some; congruence).
  pose proof grid_length as Hl.
  assert (Hnc : 0 < nc) by nia.
  assert (Hnr : 0 < nr) by nia.
  exists (Z.of_nat k / nc), (Z.of_nat k mod nc).
  pose proof (Z.div_mod (Z.of_nat k) nc ltac:(lia)) as Hdm.
  pose proof (Z.mod_pos_bound (Z.of_nat k) nc Hnc) as Hm.
  assert (Hi : 0 <= Z.of_nat k / nc < nr).
  { split; [apply Z.div_pos; lia|]. apply Z.div_lt_upper_bound; nia. }
  repeat split; try lia.
  pose proof (grid_nth _ _ Hi Hm) as Hn.
  replace (Z.to_nat (Z.of_nat k / nc * nc + Z.of_nat k mod nc)) with k in Hn
    by lia.
  congruence.
Qed.
End Grid.

(** ** One axis of the grid

    Along one axis the tiler cuts [0, total) into [n] segments: segment [i]
    starts at [i * t] and is [t] long, except the last one, which runs to
    [total]. *)

Section Axis.
Variables total n t : Z.

Let len (i : Z) : Z := if i =? n - 1 then total - i * t else t.

Lemma axis_cover r :
  0 < n -> 0 < t -> (n - 1) * t <= total -> 0 <= r < total ->
  exists i, 0 <= i < n /\ i * t <= r < i * t + len i.
Proof.
  intros Hn Ht Hfit Hr. subst len. cbv beta.
  destruct (Z_lt_ge_dec r ((n - 1) * t)) as [Hlt | Hge].
  - exists (r / t).
    pose proof (Z.div_mod r t ltac:(lia)) as Hdm.
    pose proof (Z.mod_pos_bound r t Ht) as Hm.
    assert (Hq : 0 <= r / t) by (apply Z.div_pos; lia).
    assert (Hq' : r / t < n - 1) by (apply Z.div_lt_upper_bound; lia).
    destruct (Z.eqb_spec (r / t) (n - 1)); nia.
  - exists (n - 1). rewrite Z.eqb_refl. lia.
Qed.

Lemma axis_inside i r :
  0 <= i < n -> 0 <= t -> (n - 1) * t <= total ->
  i * t <= r < i * t + len i -> 0 <= r < total.
Proof.
  intros Hi Ht Hfit. subst len. cbv beta.
  destruct (Z.eqb_spec i (n - 1)); nia.
Qed.

Lemma axis_disjoint i i' r :
  0 <= i < n -> 0 <= i' < n -> i <> i' ->
  i * t <= r < i * t + len i -> i' * t <= r < i' * t + len i' -> False.
Proof.
  intros Hi Hi' Hne. subst len. cbv beta.
  destruct (Z.eqb_spec i (n - 1)), (Z.eqb_spec i' (n - 1)); nia.
Qed.

Lemma axis_bounds i :
  0 <= i < n -> 0 <= t -> (n - 1) * t <= total ->
  0 <= i * t /\ 0 <= len i /\ i * t + len i <= total.
Proof.
  intros Hi Ht Hfit. subst len. cbv beta.
  destruct (Z.eqb_spec i (n - 1)); nia.
Qed.
End Axis.

(** ** The grid partitions the raster *)

Section Tiling.
Variable ds : Dataset.t.
Variables nr nc : Z.
Hypothesis Hnr : 0 < nr.
Hypothesis Hnc : 0 < nc.

Let th := ceiling (Dataset.height ds) nr.
Let tw := ceiling (Dataset.width ds) nc.
Let grid := tiles ds nr nc th tw.

Lemma grid_disjoint : pairwise_disjoint grid.
Proof.
  intros k1 k2 w1 w2 r c Hne H1 H2 [[Hr1 Hc1] [Hr2 Hc2]].
  apply grid_nth_inv in H1 as (i1 & j1 & Hi1 & Hj1 & Hk1 & ->).
  apply grid_nth_inv in H2 as (i2 & j2 & Hi2 & Hj2 & Hk2 & ->).
  unfold tile_at in *. cbn [row_off col_off width height] in *.
  destruct (Z.eq_dec i1 i2) as [-> | Hi].
  - assert (Hj : j1 <> j2) by (intros ->; lia).
    exact (axis_disjoint _ _ _ _ _ _ Hj1 Hj2 Hj Hc1 Hc2).
  - exact (axis_disjoint _ _ _ _ _ _ Hi1 Hi2 Hi Hr1 Hr2).
Qed.

Lemma tile_height_pos : 0 < th.
Proof. apply ceiling_pos; [apply height_pos | exact Hnr]. Qed.

Lemma tile_width_pos : 0 < tw.
Proof. apply ceiling_pos; [apply width_pos | exact Hnc]. Qed.

(** The constructor accepts every rectangle of the grid exactly when the
    last row and the last column start inside the raster. *)
Lemma accepted_iff_fit :
  forallb accepted grid = true <-> last_offsets_fit ds nr nc.
Proof.
  pose proof tile_height_pos as Hth. pose proof tile_width_pos as Htw.
  rewrite forallb_forall. split.
  - intros Hacc.
    specialize (Hacc (tile_at ds nr nc th tw (nr - 1) (nc - 1))).
    unfold accepted, tile_at in Hacc. cbn [width height] in Hacc.
    rewrite !Z.eqb_refl in Hacc.
    assert (Hin : In (tile_at ds nr nc th tw (nr - 1) (nc - 1)) grid).
    { apply grid_In. exists (nr - 1), (nc - 1). repeat split; lia. }
    unfold tile_at in Hin at 1. rewrite !Z.eqb_refl in Hin.
    specialize (Hacc Hin).
    apply negb_true_iff, orb_false_iff in Hacc as [Hw Hh].
    apply Z.ltb_ge in Hw, Hh. split; fold th; fold tw; lia.
  - intros [Hfr Hfc] w Hin.
    apply grid_In in Hin as (i & j & Hi & Hj & ->).
    unfold accepted, tile_at. cbn [width height].
    fold th in Hfr. fold tw in Hfc.
    apply negb_true_iff, orb_false_iff. rewrite !Z.ltb_ge.
    destruct (Z.eqb_spec i (nr - 1)), (Z.eqb_spec j (nc - 1)); subst; lia.
Qed.

Hypothesis Hfit : last_offsets_fit ds nr nc.

Lemma grid_covers : covers ds grid.
Proof.
  destruct Hfit as [Hfr Hfc].
  pose proof tile_height_pos as Hth. pose proof tile_width_pos as Htw.
  pose proof (height_pos ds) as Hh. pose proof (width_pos ds) as Hw.
  intros r c. split.
  - intros [Hr Hc].
    destruct (axis_cover _ _ _ r Hnr Hth Hfr Hr) as (i & Hi & Hri).
    destruct (axis_cover _ _ _ c Hnc Htw Hfc Hc) as (j & Hj & Hcj).
    exists (tile_at ds nr nc th tw i j). split.
    + apply grid_In. now exists i, j.
    + split; assumption.
  - intros (w & Hin & Hr & Hc).
    apply grid_In in Hin as (i & j & Hi & Hj & ->).
    unfold tile_at in *. cbn [row_off col_off width height] in *. split.
    + exact (axis_inside _ _ _ _ _ Hi (Z.lt_le_incl _ _ Hth) Hfr Hr).
    + exact (axis_inside _ _ _ _ _ Hj (Z.lt_le_incl _ _ Htw) Hfc Hc).
Qed.

Lemma grid_well_formed w : In w grid -> well_formed ds w.
Proof.
  destruct Hfit as [Hfr Hfc].
  pose proof tile_height_pos as Hth. pose proof tile_width_pos as Htw.
  intros Hin. apply grid_In in Hin as (i & j & Hi & Hj & ->).
  pose proof (axis_bounds _ _ _ _ Hi (Z.lt_le_incl _ _ Hth) Hfr) as Hr.
  pose proof (axis_bounds _ _ _ _ Hj (Z.lt_le_incl _ _ Htw) Hfc) as Hc.
  unfold well_formed, tile_at. cbn [row_off col_off width height]. lia.
Qed.
End Tiling.

(** A list returned for positive counts is the grid of rectangles, and the
    last offsets fit. *)
Lemma create_windows_returned ds nr nc ws :
  0 < nr -> 0 < nc -> create_windows ds nr nc = Ok ws ->
  ws = tiles ds nr nc (ceiling (Dataset.height ds) nr)
             (ceiling (Dataset.width ds) nc) /\
  last_offsets_fit ds nr nc.
Proof.
  intros Hr Hc Hok.
  apply create_windows_Ok_inv in Hok as (_ & _ & Hws & Hacc).
  split; [exact Hws|]. subst ws. now apply accepted_iff_fit.
Qed.

Lemma create_windows_fit ds nr nc :
  0 < nr -> 0 < nc -> last_offsets_fit ds nr nc ->
  create_windows ds nr nc
  = Ok (tiles ds nr nc (ceiling (Dataset.height ds) nr)
              (ceiling (Dataset.width ds) nc)).
Proof.
  intros Hr Hc Hfit. rewrite create_windows_tiles by lia.
  apply (accepted_iff_fit ds nr nc Hr Hc) in Hfit. now rewrite Hfit.
Qed.

Lemma create_windows_no_fit ds nr nc :
  0 < nr -> 0 < nc -> ~ last_offsets_fit ds nr nc ->
  create_windows ds nr nc = Raise ValueError.
Proof.
  intros Hr Hc Hfit. rewrite create_windows_tiles by lia.
  destruct (forallb accepted _) eqn:Hacc; [|reflexivity].
  exfalso. apply Hfit. now apply accepted_iff_fit.
Qed.

(** The concrete scenario of the specification: a 10 x 10 raster cut 2 x 2. *)
Example create_windows_10x10 :
  create_windows raster_10x10 2 2
  = Ok [mkWindow 0 0 5 5; mkWindow 5 0 5 5; mkWindow 0 5 5 5; mkWindow 5 5 5 5].
Proof. vm_compute. reflexivity. Qed.

(** The same raster cut 3 x 3: tiles of 4 pixels, 2 left for the last row
    and column. *)
Example create_windows_10x10_3x3 :
  create_windows raster_10x10 3 3 = Ok grid_10x10_3x3.
Proof. vm_compute. reflexivity. Qed.

(** A 5 x 5 raster cut 4 x 4: tiles are 2 pixels wide, the last column would
    start at 6 with width -1, which the constructor rejects. *)
Example create_windows_5x5 :
  create_windows raster_5x5 4 4 = Raise ValueError.
Proof. vm_compute. reflexivity. Qed.



(** C3: in a list returned by [create_windows], a window that is not in the
    last grid row is [ceil(height / nb_of_rows)] high and one that is not in
    the last grid column is [ceil(width / nb_of_cols)] wide; a window of the
    last row has height [height - row_off] and one of the last column has
    width [width - col_off]. *)
Theorem create_windows_sizes ds nb_of_rows nb_of_cols ws :
  0 < nb_of_rows -> 0 < nb_of_cols ->
  create_windows ds nb_of_rows nb_of_cols = Ok ws ->
  forall i j, 0 <= i < nb_of_rows -> 0 <= j < nb_of_cols ->
    exists w,
      nth_error ws (Z.to_nat (i * nb_of_cols + j)) = Some w /\
      (i <> nb_of_rows - 1 ->
         height w = ceiling (Dataset.height ds) nb_of_rows) /\
      (j <> nb_of_cols - 1 ->
         width w = ceiling (Dataset.width ds) nb_of_cols) /\
      (i = nb_of_rows - 1 -> height w = Dataset.height ds - row_off w) /\
      (j = nb_of_cols - 1 -> width w = Dataset.width ds - col_off w).
Proof.
  intros Hr Hc Hok.
  apply create_windows_returned in Hok as [-> _]; try assumption.
  intros i j Hi Hj. eexists. split; [apply grid_nth; assumption|].
  unfold tile_at. cbn [row_off col_off width height].
  destruct (Z.eqb_spec i (nb_of_rows - 1)), (Z.eqb_spec j (nb_of_cols - 1));
    repeat split; intros; congruence.
Qed.

Lemma create_windows_sizes_witness :
  create_windows raster_10x10 3 3 = Ok grid_10x10_3x3 /\
  (forall i j, 0 <= i < 3 -> 0 <= j < 3 ->
    exists w,
      nth_error grid_10x10_3x3 (Z.to_nat (i * 3 + j)) = Some w /\
      (i <> 3 - 1 -> height w = ceiling (Dataset.height raster_10x10) 3) /\
      (j <> 3 - 1 -> width w = ceiling (Dataset.width raster_10x10) 3) /\
      (i = 3 - 1 -> height w = Dataset.height raster_10x10 - row_off w) /\
      (j = 3 - 1 -> width w = Dataset.width raster_10x10 - col_off w)).
Proof.
  assert (Hok : create_windows raster_10x10 3 3 = Ok grid_10x10_3x3)
    by (vm_compute; reflexivity).
  split; [exact Hok|].
  apply (create_windows_sizes raster_10x10 3 3 grid_10x10_3x3);
    [lia | lia | exact Hok].
Defined.

(** C1: for a raster with positive dimensions and counts with
    [0 < nb_of_rows <= height] and [0 < nb_of_cols <= width], the list of
    windows returned by [create_windows] partitions the raster: the windows
    cover exactly its pixels and no two of them share a pixel. *)
Theorem create_windows_partitions ds nb_of_rows nb_of_cols ws :
  0 < Dataset.height ds -> 0 < Dataset.width ds ->
  0 < nb_of_rows <= Dataset.height ds ->
  0 < nb_of_cols <= Dataset.width ds ->
  create_windows ds nb_of_rows nb_of_cols = Ok ws ->
  partitions ds ws.
Proof.
  intros _ _ [Hr _] [Hc _] Hok.
  apply create_windows_returned in Hok as [-> Hfit]; try assumption. split.
  - apply grid_covers; assumption.
  - apply grid_disjoint.
Qed.

Lemma create_windows_partitions_witness :
  partitions raster_10x10 grid_10x10_3x3.
Proof.
  apply (create_windows_partitions raster_10x10 3 3 grid_10x10_3x3);
    [reflexivity | reflexivity | unfold Dataset.height; simpl; lia
    | unfold Dataset.width; simpl; lia | vm_compute; reflexivity].
Defined.

(** C4: every window of a list returned by [create_windows], for counts
    with [0 < nb_of_rows <= height] and [0 < nb_of_cols <= width], is well
    formed: offsets and sizes are non-negative and the window lies inside
    the raster. *)
Theorem create_windows_well_formed ds nb_of_rows nb_of_cols ws :
  0 < nb_of_rows <= Dataset.height ds ->
  0 < nb_of_cols <= Dataset.width ds ->
  create_windows ds nb_of_rows nb_of_cols = Ok ws ->
  forall w, In w ws -> well_formed ds w.
Proof.
  intros [Hr _] [Hc _] Hok.
  apply create_windows_returned in Hok as [-> Hfit]; try assumption.
  intros w. apply grid_well_formed; assumption.
Qed.

Lemma create_windows_well_formed_witness :
  create_windows raster_10x10 3 3 = Ok grid_10x10_3x3 /\
  (forall w, In w grid_10x10_3x3 -> well_formed raster_10x10 w).
Proof.
  assert (Hok : create_windows raster_10x10 3 3 = Ok grid_10x10_3x3)
    by (vm_compute; reflexivity).
  split; [exact Hok|].
  apply (create_windows_well_formed raster_10x10 3 3 grid_10x10_3x3);
    [unfold Dataset.height; simpl; lia | unfold Dataset.width; simpl; lia
    | exact Hok].
Defined.

(** ** Masking *)

Lemma combine_map_self {A B C : Type} (f : A -> B) (g : B * A -> C) l :
  map g (combine (map f l) l) = map (fun x => g (f x, x)) l.
Proof. induction l as [|x l IH]; simpl; [reflexivity | now rewrite IH]. Qed.

(** Masking maps each pixel on its own: the sentinel to NaN, any other pixel
    to the float of the same value. *)
Lemma where_nan_eq array v :
  np.where_nan (np.eq array v) array
  = map (map (fun p => if np.eq_scalar p v then NaN else of_int p)) array.
Proof.
  unfold np.where_nan, np.eq. rewrite combine_map_self.
  apply map_ext. intros row. simpl. now rewrite combine_map_self.
Qed.

Lemma finite_masked array v :
  np.finite (map (map (fun p => if np.eq_scalar p v then NaN else of_int p)) array)
  = map inject_Z (valid_pixels array v).
Proof.
  unfold np.finite, valid_pixels. rewrite <- concat_map.
  induction (concat array) as [|p l IH]; simpl; [reflexivity|].
  destruct (np.eq_scalar p v); simpl; now rewrite IH.
Qed.

Lemma all_isnan_masked array v :
  np.all (np.isnan
    (map (map (fun p => if np.eq_scalar p v then NaN else of_int p)) array))
  = forallb (fun p => np.eq_scalar p v) (concat array).
Proof.
  unfold np.all, np.isnan. rewrite <- !concat_map.
  induction (concat array) as [|p l IH]; simpl; [reflexivity|].
  rewrite IH. now destruct (np.eq_scalar p v).
Qed.

Lemma forallb_valid_pixels array v :
  forallb (fun p => np.eq_scalar p v) (concat array) = true
  <-> valid_pixels array v = [].
Proof.
  unfold valid_pixels.
  induction (concat array) as [|p l IH]; simpl; [tauto|].
  destruct (np.eq_scalar p v); simpl; [exact IH|]. split; discriminate.
Qed.

Lemma concat_masked array v :
  concat (map (map (fun p => if np.eq_scalar p v then NaN else of_int p)) array)
  = map (fun p => if np.eq_scalar p v then NaN else of_int p) (concat array).
Proof. now rewrite concat_map. Qed.

(** ** Minimum, maximum and sum of promoted integers *)

Lemma Qmin_inject a b : Qmin (inject_Z a) (inject_Z b) = inject_Z (Z.min a b).
Proof.
  unfold Qmin, GenericMinMax.gmin, Qcompare, Z.min, inject_Z. simpl.
  rewrite !Z.mul_1_r. now destruct (a ?= b).
Qed.

Lemma Qmax_inject a b : Qmax (inject_Z a) (inject_Z b) = inject_Z (Z.max a b).
Proof.
  unfold Qmax, GenericMinMax.gmax, Qcompare, Z.max, inject_Z. simpl.
  rewrite !Z.mul_1_r. now destruct (a ?= b).
Qed.

Lemma fold_Qmin_inject l a :
  fold_left Qmin (map inject_Z l) (inject_Z a) = inject_Z (fold_left Z.min l a).
Proof.
  revert a. induction l as [|x l IH]; intros a; simpl; [reflexivity|].
  now rewrite Qmin_inject, IH.
Qed.

Lemma fold_Qmax_inject l a :
  fold_left Qmax (map inject_Z l) (inject_Z a) = inject_Z (fold_left Z.max l a).
Proof.
  revert a. induction l as [|x l IH]; intros a; simpl; [reflexivity|].
  now rewrite Qmax_inject, IH.
Qed.

Lemma fold_Qplus_inject l a :
  fold_left Qplus (map inject_Z l) (inject_Z a)
  = inject_Z (fold_left Z.add l a).
Proof.
  revert a. induction l as [|x l IH]; intros a; simpl; [reflexivity|].
  now rewrite <- inject_Z_plus, IH.
Qed.

Lemma fold_left_add_sum l a : fold_left Z.add l a = a + sum l.
Proof.
  revert a. induction l as [|x l IH]; intros a; simpl; [lia|].
  rewrite IH. lia.
Qed.

Lemma fold_min_is_minimum l a : is_minimum (fold_left Z.min l a) (a :: l).
Proof.
  revert a. induction l as [|x l IH]; intros a.
  - split; [now left|]. intros y [<- | []]. apply Z.le_refl.
  - simpl fold_left. destruct (IH (Z.min a x)) as [Hin Hle]. split.
    + destruct Hin as [Hin | Hin]; [|now right; right].
      rewrite <- Hin. destruct (Z.min_spec a x) as [[_ ->] | [_ ->]];
        [now left | now right; left].
    + intros y [<- | [<- | Hy]].
      * etransitivity; [apply Hle; now left | apply Z.le_min_l].
      * etransitivity; [apply Hle; now left | apply Z.le_min_r].
      * apply Hle. now right.
Qed.

Lemma fold_max_is_maximum l a : is_maximum (fold_left Z.max l a) (a :: l).
Proof.
  revert a. induction l as [|x l IH]; intros a.
  - split; [now left|]. intros y [<- | []]. apply Z.le_refl.
  - simpl fold_left. destruct (IH (Z.max a x)) as [Hin Hle]. split.
    + destruct Hin as [Hin | Hin]; [|now right; right].
      rewrite <- Hin. destruct (Z.max_spec a x) as [[_ ->] | [_ ->]];
        [now right; left | now left].
    + intros y [<- | [<- | Hy]].
      * etransitivity; [apply Z.le_max_l | apply Hle; now left].
      * etransitivity; [apply Z.le_max_r | apply Hle; now left].
      * apply Hle. now right.
Qed.

(** ** Rounding *)

Lemma rint_near (y : Q) : (Qabs (inject_Z (np.rint y) - y) <= 1 # 2)%Q.
Proof.
  unfold np.rint.
  pose proof (Qfloor_le y) as Hlo.
  pose proof (Qlt_floor y) as Hhi. rewrite inject_Z_plus in Hhi.
  change (inject_Z 1) with 1%Q in Hhi.
  apply Qabs_Qle_condition.
  destruct (Qcompare_spec (y - inject_Z (Qfloor y)) (1 # 2)) as [He | Hl | Hg].
  - destruct (Z.even (Qfloor y)).
    + lra.
    + rewrite inject_Z_plus. change (inject_Z 1) with 1%Q. lra.
  - lra.
  - rewrite inject_Z_plus. change (inject_Z 1) with 1%Q. lra.
Qed.

Lemma round_2dp (x : Q) :
  exists r, round (Fin x) 2 = Fin r /\ rounded_to_2dp x r.
Proof.
  eexists. split; [reflexivity|]. split.
  - eexists. change (10 ^ 2) with 100. reflexivity.
  - change (10 ^ 2) with 100.
    pose proof (rint_near (x * inject_Z 100)) as H.
    apply Qabs_Qle_condition in H. apply Qabs_Qle_condition.
    change (inject_Z 100) with 100%Q in *.
    set (k := inject_Z (np.rint (x * 100))) in *.
    unfold Qdiv. change (/ 100)%Q with (1 # 100)%Q.
    lra.
Qed.

(** ** The statistics of one window *)

Lemma window_stats_masked array v :
  window_stats array v
  = cover_stats
      (map (map (fun p => if np.eq_scalar p v then NaN else of_int p)) array).
Proof. unfold window_stats. now rewrite where_nan_eq. Qed.

(** No valid pixel: the guard of the loop gives three absent values. *)
Lemma window_stats_none array v :
  valid_pixels array v = [] ->
  window_stats array v = Ok (mkStats None None None).
Proof.
  intros Hv. rewrite window_stats_masked. unfold cover_stats.
  rewrite all_isnan_masked.
  apply forallb_valid_pixels in Hv. now rewrite Hv.
Qed.

(** Some valid pixel: the three statistics are taken over the valid pixels
    only. *)
Lemma window_stats_some array v x xs :
  valid_pixels array v = x :: xs ->
  window_stats array v
  = Ok (mkStats (Some (of_int (fold_left Z.min xs x)))
                (Some (of_int (fold_left Z.max xs x)))
                (Some (round (Fin (mean_of (x :: xs))) 2))).
Proof.
  intros Hv. rewrite window_stats_masked. unfold cover_stats.
  rewrite all_isnan_masked.
  destruct (forallb _ (concat array)) eqn:Hall.
  { apply forallb_valid_pixels in Hall. congruence. }
  unfold np.nanmin, np.nanmax, np.nanmean.
  rewrite finite_masked, concat_masked, Hv.
  destruct (concat array) as [|p l] eqn:Hc.
  { unfold valid_pixels in Hv. rewrite Hc in Hv. discriminate. }
  cbn [map bind].
  rewrite fold_Qmin_inject, fold_Qmax_inject.
  change 0%Q with (inject_Z 0).
  change (inject_Z x :: map inject_Z xs) with (map inject_Z (x :: xs)).
  rewrite (fold_Qplus_inject (x :: xs) 0), fold_left_add_sum, length_map.
  reflexivity.
Qed.

Lemma window_stats_total array v : exists s, window_stats array v = Ok s.
Proof.
  destruct (valid_pixels array v) as [|x xs] eqn:Hv.
  - eexists. now apply window_stats_none.
  - eexists. now apply (window_stats_some _ _ x xs).
Qed.

(** The shape of the statistics when some pixel is valid. *)
Lemma window_stats_valid array v :
  valid_pixels array v <> [] ->
  exists mn mx avg,
    window_stats array v
    = Ok (mkStats (Some (of_int mn)) (Some (of_int mx)) (Some (Fin avg))) /\
    is_minimum mn (valid_pixels array v) /\
    is_maximum mx (valid_pixels array v) /\
    rounded_to_2dp (mean_of (valid_pixels array v)) avg.
Proof.
  intros Hne. destruct (valid_pixels array v) as [|x xs] eqn:Hv;
    [congruence|].
  destruct (round_2dp (mean_of (x :: xs))) as (r & Hr & Hr2).
  exists (fold_left Z.min xs x), (fold_left Z.max xs x), r.
  rewrite (window_stats_some _ _ x xs Hv), Hr.
  repeat split; try apply fold_min_is_minimum; try apply fold_max_is_maximum;
    apply Hr2.
Qed.

(** The inspection script computes the same three values, without the
    guard. *)
Lemma inspect_values_some array v x xs :
  valid_pixels array v = x :: xs ->
  inspect_values array v
  = Ok (of_int (fold_left Z.min xs x), of_int (fold_left Z.max xs x),
        round (Fin (mean_of (x :: xs))) 2).
Proof.
  intros Hv. unfold inspect_values. rewrite where_nan_eq.
  unfold np.nanmin, np.nanmax, np.nanmean.
  rewrite finite_masked, concat_masked, Hv.
  destruct (concat array) as [|p l] eqn:Hc.
  { unfold valid_pixels in Hv. rewrite Hc in Hv. discriminate. }
  cbn [map bind].
  rewrite fold_Qmin_inject, fold_Qmax_inject.
  change 0%Q with (inject_Z 0).
  change (inject_Z x :: map inject_Z xs) with (map inject_Z (x :: xs)).
  rewrite (fold_Qplus_inject (x :: xs) 0), fold_left_add_sum, length_map.
  reflexivity.
Qed.

Lemma valid_pixels_no_nodata array : valid_pixels array None = concat array.
Proof.
  unfold valid_pixels. induction (concat array) as [|p l IH];
    [reflexivity | simpl; f_equal; exact IH].
Qed.

(** ** Strings *)

Lemma append_assoc (a b c : string) :
  ((a ++ b) ++ c = a ++ (b ++ c))%string.
Proof. induction a as [|ch a IH]; simpl; [reflexivity | now rewrite IH]. Qed.

Lemma append_empty_r (a : string) : (a ++ "")%string = a.
Proof. induction a as [|ch a IH]; simpl; [reflexivity | now rewrite IH]. Qed.

(** An integer-valued float is written with one zero after the point. *)
Lemma str_float_of_int (m : Z) :
  str_float (of_int m) = (str_int m ++ ".0")%string.
Proof.
  unfold str_float, of_int, inject_Z. cbn [Qnum Qden].
  rewrite Z.div_1_r, Z.mod_1_r. cbn [Z.eqb].
  destruct m as [|p|p]; reflexivity.
Qed.

(** ** The loop over the windows *)

Lemma for_each_rows ds nd windows st :
  exists stats,
    Forall2 (fun array s => window_stats array nd = Ok s)
            (read_arrays ds windows) stats /\
    for_each (loop_body ds nd) windows st
    = Ok (mkState (id st + Z.of_nat (length stats))
                  (file st ++ rows_from (id st) stats)%string).
Proof.
  revert st. induction windows as [|wind rest IH]; intros st.
  - exists []. split; [constructor|]. simpl.
    rewrite Z.add_0_r, append_empty_r. now destruct st.
  - simpl. unfold loop_body at 1.
    destruct (Dataset.read ds 1 wind) as [array | e].
    + destruct (window_stats_total array nd) as [s Hs]. rewrite Hs.
      cbn [bind]. destruct (IH (mkState (id st + 1)
                                  (file st ++ csv_row (id st) s))) as
        (stats & Hstats & Hloop).
      exists (s :: stats). split; [now constructor|].
      rewrite Hloop. cbn [id file length rows_from]. f_equal. f_equal.
      * lia.
      * unfold csv_row. now rewrite !append_assoc.
    + cbn [bind]. destruct (IH st) as (stats & Hstats & Hloop).
      exists stats. split; assumption.
Qed.

Lemma read_arrays_skip ds before wind after e :
  Dataset.read ds 1 wind = Raise e ->
  read_arrays ds (before ++ wind :: after) = read_arrays ds (before ++ after).
Proof.
  intros He. unfold read_arrays. rewrite !flat_map_app. simpl.
  now rewrite He.
Qed.

Lemma read_arrays_all_ok ds (P : ndarray Z -> Stats -> Prop) windows stats :
  (forall w, In w windows -> exists array, Dataset.read ds 1 w = Ok array) ->
  Forall2 P (read_arrays ds windows) stats ->
  Forall2 (fun w s => exists array, Dataset.read ds 1 w = Ok array /\ P array s)
          windows stats.
Proof.
  revert stats. induction windows as [|w rest IH]; intros stats Hok HF.
  - inversion HF. constructor.
  - destruct (Hok w (or_introl eq_refl)) as [array Ha].
    unfold read_arrays in HF. simpl in HF. rewrite Ha in HF. simpl in HF.
    inversion HF as [|a s l l' HP HF']; subst. constructor.
    + now exists array.
    + apply IH; [|exact HF']. intros w' Hw'. apply Hok. now right.
Qed.

Lemma write_stats_rows ds windows :
  exists stats,
    Forall2 (fun array s => window_stats array (Dataset.nodata ds) = Ok s)
            (read_arrays ds windows) stats /\
    write_stats ds windows
    = Ok (columns ++ newline ++ rows_from 1 stats)%string.
Proof.
  destruct (for_each_rows ds (Dataset.nodata ds) windows
              (mkState 1 (columns ++ newline))) as (stats & HF & Hloop).
  exists stats. split; [exact HF|].
  unfold write_stats. rewrite Hloop. cbn [bind file id].
  now rewrite append_assoc.
Qed.

Lemma eq_scalar_sentinel p sentinel :
  np.eq_scalar p (Some (Fin sentinel)) = negb (differs_from sentinel p).
Proof.
  unfold np.eq_scalar, differs_from.
  destruct (Qeq_dec (inject_Z p) sentinel) as [He | Hne]; cbn [negb].
  - now apply Qeq_bool_iff.
  - destruct (Qeq_bool (inject_Z p) sentinel) eqn:Hb; [|reflexivity].
    apply Qeq_bool_iff in Hb. contradiction.
Qed.

Lemma valid_pixels_sentinel array sentinel :
  valid_pixels array (Some (Fin sentinel)) = non_sentinel_pixels array sentinel.
Proof.
  unfold valid_pixels, non_sentinel_pixels. apply filter_ext.
  intros p. now rewrite eq_scalar_sentinel, negb_involutive.
Qed.

(** C5: when some pixel of the window is not equal to the nodata sentinel,
    the minimum and the maximum are those of the pixels that are not equal
    to it, unrounded, and the mean is the arithmetic mean of those pixels
    rounded to two decimal places; the pixels equal to the sentinel enter
    none of the three. *)
Theorem window_stats_ignore_nodata array (sentinel : Q) :
  (exists p, In p (concat array) /\ ~ (inject_Z p == sentinel)%Q) ->
  exists mn mx avg,
    window_stats array (Some (Fin sentinel))
    = Ok (mkStats (Some (of_int mn)) (Some (of_int mx)) (Some (Fin avg))) /\
    is_minimum mn (non_sentinel_pixels array sentinel) /\
    is_maximum mx (non_sentinel_pixels array sentinel) /\
    rounded_to_2dp (mean_of (non_sentinel_pixels array sentinel)) avg.
Proof.
  intros (p & Hin & Hp). rewrite <- valid_pixels_sentinel.
  apply window_stats_valid.
  intros Hnil.
  assert (Hv : In p (valid_pixels array (Some (Fin sentinel)))).
  { rewrite valid_pixels_sentinel. apply filter_In. split; [exact Hin|].
    unfold differs_from.
    destruct (Qeq_dec (inject_Z p) sentinel); [contradiction | reflexivity]. }
  rewrite Hnil in Hv. exact Hv.
Qed.

Lemma window_stats_ignore_nodata_witness :
  exists mn mx avg,
    window_stats [[255; 255]; [0; 100]] (Some (Fin (inject_Z 255)))
    = Ok (mkStats (Some (of_int mn)) (Some (of_int mx)) (Some (Fin avg))) /\
    is_minimum mn [0; 100] /\
    is_maximum mx [0; 100] /\
    rounded_to_2dp (mean_of [0; 100]) avg.
Proof.
  apply (window_stats_ignore_nodata [[255; 255]; [0; 100]] (inject_Z 255)).
  exists 0. split; [simpl; tauto | discriminate].
Defined.

(** The example of the specification: [255, 255, 0, 100] with nodata 255
    gives 0, 100 and 50.0. *)
Example window_stats_mixed :
  window_stats [[255; 255]; [0; 100]] (Some (Fin (inject_Z 255)))
  = Ok (mkStats (Some (of_int 0)) (Some (of_int 100)) (Some (Fin (5000 # 100)))).
Proof. vm_compute. reflexivity. Qed.

(** C6: when every pixel of the window equals the nodata value, the three
    statistics are absent and nothing is raised. *)
Theorem window_stats_all_nodata array nodata_value :
  (forall p, In p (concat array) -> np.eq_scalar p nodata_value = true) ->
  window_stats array nodata_value = Ok (mkStats None None None).
Proof.
  intros Hall. apply window_stats_none, forallb_valid_pixels.
  apply forallb_forall. exact Hall.
Qed.

Lemma window_stats_all_nodata_witness :
  (forall p, In p (concat [[255; 255]; [255; 255]]) ->
             np.eq_scalar p (Some (Fin (inject_Z 255))) = true) /\
  window_stats [[255; 255]; [255; 255]] (Some (Fin (inject_Z 255)))
  = Ok (mkStats None None None).
Proof.
  assert (H : forall p, In p (concat [[255; 255]; [255; 255]]) ->
                        np.eq_scalar p (Some (Fin (inject_Z 255))) = true).
  { intros p Hp. simpl in Hp.
    destruct Hp as [<- | [<- | [<- | [<- | []]]]]; reflexivity. }
  split; [exact H|].
  exact (window_stats_all_nodata [[255; 255]; [255; 255]]
           (Some (Fin (inject_Z 255))) H).
Defined.

(** C7: a window whose read raises is skipped, no line is written for it and
    the loop goes on with the next window; the id moves on only after a
    line is written, so with one failing read among [N] windows the file
    holds the header and [N - 1] lines, numbered 1 to [N - 1] without a gap,
    one for each of the other windows in order. *)
Theorem single_read_failure_skips_window ds before wind after e :
  Dataset.read ds 1 wind = Raise e ->
  (forall w, In w (before ++ after) ->
             exists array, Dataset.read ds 1 w = Ok array) ->
  exists stats,
    Forall2 (fun w s => exists array,
               Dataset.read ds 1 w = Ok array /\
               window_stats array (Dataset.nodata ds) = Ok s)
            (before ++ after) stats /\
    Z.of_nat (length stats) = Z.of_nat (length (before ++ wind :: after)) - 1 /\
    for_each (loop_body ds (Dataset.nodata ds)) (before ++ wind :: after)
             (mkState 1 (columns ++ newline))
    = Ok (mkState (Z.of_nat (length (before ++ wind :: after)))
                  ((columns ++ newline) ++ rows_from 1 stats)%string) /\
    write_stats ds (before ++ wind :: after)
    = Ok (columns ++ newline ++ rows_from 1 stats)%string.
Proof.
  intros He Hok.
  destruct (for_each_rows ds (Dataset.nodata ds) (before ++ wind :: after)
              (mkState 1 (columns ++ newline))) as (stats & HF & Hloop).
  rewrite (read_arrays_skip _ _ _ _ _ He) in HF.
  apply (read_arrays_all_ok _ _ _ _ Hok) in HF.
  assert (Hlen : Z.of_nat (length stats)
                 = Z.of_nat (length (before ++ wind :: after)) - 1).
  { rewrite <- (Forall2_length HF), !length_app. simpl. lia. }
  exists stats. split; [exact HF|]. split; [exact Hlen|].
  cbn [id file] in Hloop. split.
  - rewrite Hloop. f_equal. f_equal. lia.
  - unfold write_stats. rewrite Hloop. cbn [bind file].
    now rewrite append_assoc.
Qed.

(** The grid of [raster_failing] cut 2 x 2: the second window is the one
    that cannot be read. *)
Example create_windows_failing :
  create_windows raster_failing 2 2
  = Ok ([mkWindow 0 0 5 5] ++ mkWindow 5 0 5 5
          :: [mkWindow 0 5 5 5; mkWindow 5 5 5 5]).
Proof. vm_compute. reflexivity. Qed.

Lemma single_read_failure_skips_window_witness :
  exists stats,
    Forall2 (fun w s => exists array,
               Dataset.read raster_failing 1 w = Ok array /\
               window_stats array (Dataset.nodata raster_failing) = Ok s)
            ([mkWindow 0 0 5 5] ++ [mkWindow 0 5 5 5; mkWindow 5 5 5 5])
            stats /\
    Z.of_nat (length stats) = 4 - 1 /\
    for_each (loop_body raster_failing (Dataset.nodata raster_failing))
             ([mkWindow 0 0 5 5] ++ mkWindow 5 0 5 5
                :: [mkWindow 0 5 5 5; mkWindow 5 5 5 5])
             (mkState 1 (columns ++ newline))
    = Ok (mkState 4 ((columns ++ newline) ++ rows_from 1 stats)%string) /\
    write_stats raster_failing
      ([mkWindow 0 0 5 5] ++ mkWindow 5 0 5 5
         :: [mkWindow 0 5 5 5; mkWindow 5 5 5 5])
    = Ok (columns ++ newline ++ rows_from 1 stats)%string.
Proof.
  apply (single_read_failure_skips_window raster_failing
           [mkWindow 0 0 5 5] (mkWindow 5 0 5 5)
           [mkWindow 0 5 5 5; mkWindow 5 5 5 5] RasterioIOError).
  - reflexivity.
  - intros w Hw. simpl in Hw.
    destruct Hw as [<- | [<- | [<- | []]]]; eexists; reflexivity.
Defined.

(** What the script writes for [raster_failing] cut 2 x 2: three lines,
    numbered 1 to 3. *)
Example write_stats_failing :
  write_stats raster_failing
    [mkWindow 0 0 5 5; mkWindow 5 0 5 5; mkWindow 0 5 5 5; mkWindow 5 5 5 5]
  = Ok ("array,minimum_cover,maximum_cover,average_cover" ++ newline
        ++ "array_1,0.0,7.0,2.33" ++ newline
        ++ "array_2,0.0,7.0,4.0" ++ newline
        ++ "array_3,5.0,7.0,5.67" ++ newline)%string.
Proof. vm_compute. reflexivity. Qed.




(** What the script writes for [raster_64x64]. *)
Example main_64x64 : main raster_64x64 = Ok csv_64x64.
Proof. vm_compute. reflexivity. Qed.


(** C9: when the dataset declares no nodata value, masking changes no pixel
    and, for a window with at least one pixel, the three statistics are
    present and taken over all the pixels of the window; the inspection
    script computes the same three values. *)
Theorem no_nodata_masks_nothing array :
  concat array <> [] ->
  np.where_nan (np.eq array None) array = map (map of_int) array /\
  exists mn mx avg,
    window_stats array None
    = Ok (mkStats (Some (of_int mn)) (Some (of_int mx)) (Some (Fin avg))) /\
    inspect_values array None = Ok (of_int mn, of_int mx, Fin avg) /\
    is_minimum mn (concat array) /\
    is_maximum mx (concat array) /\
    rounded_to_2dp (mean_of (concat array)) avg.
Proof.
  intros Hne. split; [apply where_nan_eq|].
  pose proof (valid_pixels_no_nodata array) as Hv.
  destruct (concat array) as [|x xs] eqn:Hc; [congruence|].
  destruct (round_2dp (mean_of (x :: xs))) as (r & Hr & Hr2).
  exists (fold_left Z.min xs x), (fold_left Z.max xs x), r.
  rewrite (window_stats_some _ _ x xs Hv), (inspect_values_some _ _ x xs Hv), Hr.
  repeat split; try apply fold_min_is_minimum; try apply fold_max_is_maximum;
    apply Hr2.
Qed.

Lemma no_nodata_masks_nothing_witness :
  concat [[255; 255]; [0; 100]] <> [] /\
  np.where_nan (np.eq [[255; 255]; [0; 100]] None) [[255; 255]; [0; 100]]
  = map (map of_int) [[255; 255]; [0; 100]] /\
  exists mn mx avg,
    window_stats [[255; 255]; [0; 100]] None
    = Ok (mkStats (Some (of_int mn)) (Some (of_int mx)) (Some (Fin avg))) /\
    inspect_values [[255; 255]; [0; 100]] None
    = Ok (of_int mn, of_int mx, Fin avg) /\
    is_minimum mn (concat [[255; 255]; [0; 100]]) /\
    is_maximum mx (concat [[255; 255]; [0; 100]]) /\
    rounded_to_2dp (mean_of (concat [[255; 255]; [0; 100]])) avg.
Proof.
  assert (H : concat [[255; 255]; [0; 100]] <> []) by (simpl; discriminate).
  split; [exact H|].
  exact (no_nodata_masks_nothing [[255; 255]; [0; 100]] H).
Defined.

(** Without a nodata value the sentinel 255 counts as a pixel. *)
Example window_stats_no_nodata :
  window_stats [[255; 255]; [0; 100]] None
  = Ok (mkStats (Some (of_int 0)) (Some (of_int 255)) (Some (Fin (15250 # 100)))).
Proof. vm_compute. reflexivity. Qed.

(** C10: masking builds an array of floats, each pixel promoted to the float
    of its value or replaced by NaN, so the minimum and the maximum of a
    window, when present, are floats and are written as such: an integer
    value [m] appears in the line as [m.0]. *)
Theorem min_max_written_as_floats array nodata_value s :
  window_stats array nodata_value = Ok s ->
  np.where_nan (np.eq array nodata_value) array
  = map (map (fun p => if np.eq_scalar p nodata_value then NaN else of_int p))
        array /\
  ((min_cover s = None /\ max_cover s = None) \/
   exists mn mx,
     min_cover s = Some (of_int mn) /\ max_cover s = Some (of_int mx) /\
     str (min_cover s) = (str_int mn ++ ".0")%string /\
     str (max_cover s) = (str_int mx ++ ".0")%string).
Proof.
  intros Hs. split; [apply where_nan_eq|].
  destruct (valid_pixels array nodata_value) as [|x xs] eqn:Hv.
  - rewrite (window_stats_none _ _ Hv) in Hs. injection Hs as <-.
    left. split; reflexivity.
  - rewrite (window_stats_some _ _ x xs Hv) in Hs. injection Hs as <-.
    right. exists (fold_left Z.min xs x), (fold_left Z.max xs x).
    cbn [min_cover max_cover str]. rewrite !str_float_of_int.
    repeat split; reflexivity.
Qed.

Lemma min_max_written_as_floats_witness :
  window_stats [[255; 255]; [0; 100]] (Some (Fin (inject_Z 255)))
  = Ok (mkStats (Some (of_int 0)) (Some (of_int 100)) (Some (Fin (5000 # 100)))) /\
  exists mn mx,
    Some (of_int 0) = Some (of_int mn) /\ Some (of_int 100) = Some (of_int mx) /\
    str (Some (of_int 0)) = (str_int mn ++ ".0")%string /\
    str (Some (of_int 100)) = (str_int mx ++ ".0")%string.
Proof.
  split; [exact window_stats_mixed|].
  destruct (min_max_written_as_floats [[255; 255]; [0; 100]]
              (Some (Fin (inject_Z 255))) _ window_stats_mixed)
    as [_ [[Hnone _] | Hsome]].
  - discriminate Hnone.
  - exact Hsome.
Defined.

(** A raster pixel 0 is written [0.0]. *)
Example csv_row_mixed :
  csv_row 1 (mkStats (Some (of_int 0)) (Some (of_int 100)) (Some (Fin (5000 # 100))))
  = ("array_1,0.0,100.0,50.0" ++ newline)%string.
Proof. vm_compute. reflexivity. Qed.

(** * Further properties of the tiler *)

Lemma tiles_negative_count ds nr nc th tw :
  nr < 0 \/ nc < 0 -> tiles ds nr nc th tw = [].
Proof.
  intros Hneg. apply length_zero_iff_nil.
  pose proof (grid_length ds nr nc th tw) as Hl. nia.
Qed.

(** X1: [create_windows] raises in two ways only: [ZeroDivisionError] when
    one of the two counts is zero, and the [ValueError] of rasterio's window
    constructor when both counts are positive and the last grid row or
    column would start beyond the raster. *)
Theorem create_windows_raises_iff ds nb_of_rows nb_of_cols e :
  create_windows ds nb_of_rows nb_of_cols = Raise e <->
  (e = ZeroDivisionError /\ (nb_of_rows = 0 \/ nb_of_cols = 0)) \/
  (e = ValueError /\ 0 < nb_of_rows /\ 0 < nb_of_cols /\
   ~ last_offsets_fit ds nb_of_rows nb_of_cols).
Proof.
  destruct (Z.eq_dec nb_of_rows 0) as [-> | Hr].
  { unfold create_windows, ceil_div. cbn [Z.eqb bind]. split.
    - intros He. injection He as <-. left. split; [reflexivity | now left].
    - intros [[-> _] | (_ & Hlt & _)]; [reflexivity | lia]. }
  destruct (Z.eq_dec nb_of_cols 0) as [-> | Hc].
  { unfold create_windows. rewrite (ceil_div_ok _ _ Hr).
    unfold ceil_div. cbn [Z.eqb bind]. split.
    - intros He. injection He as <-. left. split; [reflexivity | now right].
    - intros [[-> _] | (_ & _ & Hlt & _)]; [reflexivity | lia]. }
  destruct (Z_lt_ge_dec 0 nb_of_rows) as [Hrp | Hrn];
    [destruct (Z_lt_ge_dec 0 nb_of_cols) as [Hcp | Hcn]|].
  - rewrite create_windows_tiles by assumption.
    destruct (forallb accepted _) eqn:Hacc.
    + apply accepted_iff_fit in Hacc; try assumption. split; [discriminate|].
      intros [[_ [? | ?]] | (_ & _ & _ & Hn)]; try lia. contradiction.
    + split.
      * intros He. injection He as <-. right. repeat split; try assumption.
        intros Hfit. apply accepted_iff_fit in Hfit; try assumption.
        congruence.
      * intros [[_ [? | ?]] | (-> & _)]; try lia. reflexivity.
  - rewrite create_windows_tiles, tiles_negative_count by
      (try assumption; right; lia).
    cbn [forallb]. split; [discriminate|].
    intros [[_ [? | ?]] | (_ & _ & ? & _)]; lia.
  - rewrite create_windows_tiles, tiles_negative_count by
      (try assumption; left; lia).
    cbn [forallb]. split; [discriminate|].
    intros [[_ [? | ?]] | (_ & ? & _)]; lia.
Qed.

(** X2: in a returned grid the windows follow one another without a seam: the
    first column starts at 0, each window starts where its left neighbour
    ends, with the same row offset and height, and the last column ends at
    [dataset.width]; likewise down the rows. *)
Theorem create_windows_abut ds nb_of_rows nb_of_cols ws :
  0 < nb_of_rows -> 0 < nb_of_cols ->
  create_windows ds nb_of_rows nb_of_cols = Ok ws ->
  forall i j, 0 <= i < nb_of_rows -> 0 <= j < nb_of_cols ->
    exists w,
      nth_error ws (Z.to_nat (i * nb_of_cols + j)) = Some w /\
      (j = 0 -> col_off w = 0) /\
      (i = 0 -> row_off w = 0) /\
      (j = nb_of_cols - 1 -> col_off w + width w = Dataset.width ds) /\
      (i = nb_of_rows - 1 -> row_off w + height w = Dataset.height ds) /\
      (j + 1 < nb_of_cols ->
         exists right,
           nth_error ws (Z.to_nat (i * nb_of_cols + (j + 1))) = Some right /\
           col_off right = col_off w + width w /\
           row_off right = row_off w /\ height right = height w) /\
      (i + 1 < nb_of_rows ->
         exists below,
           nth_error ws (Z.to_nat ((i + 1) * nb_of_cols + j)) = Some below /\
           row_off below = row_off w + height w /\
           col_off below = col_off w /\ width below = width w).
Proof.
  intros Hr Hc Hok.
  apply create_windows_returned in Hok as [-> _]; try assumption.
  intros i j Hi Hj. eexists. split; [apply grid_nth; assumption|].
  unfold tile_at. cbn [col_off row_off width height].
  repeat split.
  - intros ->. lia.
  - intros ->. lia.
  - intros ->. rewrite Z.eqb_refl. lia.
  - intros ->. rewrite Z.eqb_refl. lia.
  - intros Hj1. eexists. split; [apply grid_nth; lia|].
    unfold tile_at. cbn [col_off row_off width height].
    destruct (Z.eqb_spec j (nb_of_cols - 1)); [lia|].
    repeat split; try reflexivity; lia.
  - intros Hi1. eexists. split; [apply grid_nth; lia|].
    unfold tile_at. cbn [col_off row_off width height].
    destruct (Z.eqb_spec i (nb_of_rows - 1)); [lia|].
    repeat split; try reflexivity; lia.
Qed.

Lemma create_windows_abut_witness :
  create_windows raster_10x10 3 3 = Ok grid_10x10_3x3 /\
  (forall i j, 0 <= i < 3 -> 0 <= j < 3 ->
    exists w,
      nth_error grid_10x10_3x3 (Z.to_nat (i * 3 + j)) = Some w /\
      (j = 0 -> col_off w = 0) /\
      (i = 0 -> row_off w = 0) /\
      (j = 3 - 1 -> col_off w + width w = Dataset.width raster_10x10) /\
      (i = 3 - 1 -> row_off w + height w = Dataset.height raster_10x10) /\
      (j + 1 < 3 ->
         exists right,
           nth_error grid_10x10_3x3 (Z.to_nat (i * 3 + (j + 1))) = Some right /\
           col_off right = col_off w + width w /\
           row_off right = row_off w /\ height right = height w) /\
      (i + 1 < 3 ->
         exists below,
           nth_error grid_10x10_3x3 (Z.to_nat ((i + 1) * 3 + j)) = Some below /\
           row_off below = row_off w + height w /\
           col_off below = col_off w /\ width below = width w)).
Proof.
  assert (Hok : create_windows raster_10x10 3 3 = Ok grid_10x10_3x3)
    by (vm_compute; reflexivity).
  split; [exact Hok|].
  apply (create_windows_abut raster_10x10 3 3 grid_10x10_3x3);
    [lia | lia | exact Hok].
Defined.

(** X3: the windows of a grid returned for positive counts are all
    different, so a read that depends on the window alone is asked about
    each window once. *)
Theorem create_windows_NoDup ds nb_of_rows nb_of_cols ws :
  0 < nb_of_rows -> 0 < nb_of_cols ->
  create_windows ds nb_of_rows nb_of_cols = Ok ws -> NoDup ws.
Proof.
  intros Hr Hc Hok.
  apply create_windows_returned in Hok as [-> _]; try assumption.
  pose proof (tile_height_pos ds _ Hr) as Hth.
  pose proof (tile_width_pos ds _ Hc) as Htw.
  apply NoDup_nth_error. intros k1 k2 Hk1 Heq.
  destruct (nth_error _ k1) as [w|] eqn:H1;
    [|apply nth_error_None in H1; lia].
  symmetry in Heq.
  apply grid_nth_inv in H1 as (i1 & j1 & Hi1 & Hj1 & Hk1' & ->).
  apply grid_nth_inv in Heq as (i2 & j2 & Hi2 & Hj2 & Hk2' & Hw12).
  apply (f_equal row_off) in Hw12 as Hrow.
  apply (f_equal col_off) in Hw12 as Hcol.
  unfold tile_at in Hrow, Hcol. cbn [row_off col_off] in Hrow, Hcol.
  assert (i1 = i2) by nia. assert (j1 = j2) by nia. subst. lia.
Qed.

Lemma create_windows_NoDup_witness : NoDup grid_10x10_3x3.
Proof.
  apply (create_windows_NoDup raster_10x10 3 3 grid_10x10_3x3);
    [lia | lia | vm_compute; reflexivity].
Defined.

Lemma last_offset_inside total n :
  0 < total -> 0 < n -> n * (n - 1) <= total ->
  (n - 1) * ceiling total n < total.
Proof.
  intros Ht Hn Hsq. pose proof (ceiling_spec total n Hn) as Hc.
  set (c := ceiling total n) in *.
  destruct (Z_le_gt_dec n c) as [Hge | Hlt]; [nia|].
  assert (c = n - 1) by nia. subst c. nia.
Qed.

(** X4: a raster with at least [n * (n - 1)] pixels along each axis, for a
    grid of [n] rows or columns along it, is cut properly: the windows
    partition the raster, each lies inside it and each has at least one row
    and one column of pixels.  (The 8 x 8 grid of the script is safe from 56
    pixels on.) *)
Theorem create_windows_large_raster ds nb_of_rows nb_of_cols :
  0 < Dataset.height ds -> 0 < Dataset.width ds ->
  0 < nb_of_rows -> 0 < nb_of_cols ->
  nb_of_rows * (nb_of_rows - 1) <= Dataset.height ds ->
  nb_of_cols * (nb_of_cols - 1) <= Dataset.width ds ->
  exists ws,
    create_windows ds nb_of_rows nb_of_cols = Ok ws /\
    partitions ds ws /\
    forall w, In w ws -> well_formed ds w /\ 0 < height w /\ 0 < width w.
Proof.
  intros Hh Hw Hr Hc Hsr Hsc.
  pose proof (last_offset_inside _ _ Hh Hr Hsr) as Hfr.
  pose proof (last_offset_inside _ _ Hw Hc Hsc) as Hfc.
  assert (Hfit : last_offsets_fit ds nb_of_rows nb_of_cols)
    by (split; lia).
  eexists. split; [apply create_windows_fit; assumption|]. split.
  - split; [apply grid_covers; assumption | apply grid_disjoint].
  - intros w Hin. split; [apply (grid_well_formed ds nb_of_rows nb_of_cols);
                           assumption|].
    apply grid_In in Hin as (i & j & Hi & Hj & ->).
    pose proof (ceiling_pos _ _ Hh Hr) as Hth.
    pose proof (ceiling_pos _ _ Hw Hc) as Htw.
    unfold tile_at. cbn [height width].
    destruct (Z.eqb_spec i (nb_of_rows - 1)), (Z.eqb_spec j (nb_of_cols - 1));
      subst; lia.
Qed.

Lemma create_windows_large_raster_witness :
  exists ws,
    create_windows raster_10x10 3 3 = Ok ws /\
    partitions raster_10x10 ws /\
    forall w, In w ws ->
      well_formed raster_10x10 w /\ 0 < height w /\ 0 < width w.
Proof.
  apply (create_windows_large_raster raster_10x10 3 3);
    unfold Dataset.height, Dataset.width; simpl; lia.
Defined.

Lemma ceiling_exact n a : 0 < n -> ceiling (n * a) n = a.
Proof.
  intros Hn. pose proof (ceiling_spec (n * a) n Hn) as Hc. nia.
Qed.

(** X5: when the counts divide the raster's height and width, every window
    of the grid, the last row and column included, has the same size:
    [height / nb_of_rows] by [width / nb_of_cols]. *)
Theorem create_windows_uniform ds nb_of_rows nb_of_cols a b :
  0 < nb_of_rows -> 0 < nb_of_cols ->
  Dataset.height ds = nb_of_rows * a -> Dataset.width ds = nb_of_cols * b ->
  exists ws,
    create_windows ds nb_of_rows nb_of_cols = Ok ws /\
    forall w, In w ws -> height w = a /\ width w = b.
Proof.
  intros Hr Hc Hh Hw.
  pose proof (height_pos ds) as Hhp. pose proof (width_pos ds) as Hwp.
  assert (Hfit : last_offsets_fit ds nb_of_rows nb_of_cols).
  { unfold last_offsets_fit. rewrite Hh, Hw, !ceiling_exact by assumption.
    split; nia. }
  eexists. split; [apply create_windows_fit; assumption|].
  intros w Hin. apply grid_In in Hin as (i & j & Hi & Hj & ->).
  unfold tile_at. cbn [height width].
  rewrite Hh, Hw, !ceiling_exact by assumption.
  destruct (Z.eqb_spec i (nb_of_rows - 1)), (Z.eqb_spec j (nb_of_cols - 1));
    subst; split; lia.
Qed.

Lemma create_windows_uniform_witness :
  exists ws,
    create_windows raster_10x10 2 2 = Ok ws /\
    forall w, In w ws -> height w = 5 /\ width w = 5.
Proof.
  apply (create_windows_uniform raster_10x10 2 2 5 5); try lia; reflexivity.
Defined.

(** ** Pixel count *)

Lemma range_snoc n : 0 < n -> range n = range (n - 1) ++ [n - 1].
Proof.
  intros Hn. unfold range.
  replace (Z.to_nat n) with (S (Z.to_nat (n - 1))) by lia.
  rewrite seq_S, map_app. simpl. f_equal. f_equal. lia.
Qed.

(** The lengths of the segments of one axis add up to its length. *)
Lemma axis_lengths_sum total n t :
  0 < n ->
  fold_right
    (fun i acc => (if i =? n - 1 then total - i * t else t) + acc) 0 (range n)
  = total.
Proof.
  intros Hn. rewrite (range_snoc n Hn), fold_right_app.
  cbn [fold_right]. rewrite Z.eqb_refl, Z.add_0_r.
  assert (Hgen : forall l base,
             (forall i, In i l -> i <> n - 1) ->
             fold_right
               (fun i acc => (if i =? n - 1 then total - i * t else t) + acc)
               base l
             = Z.of_nat (length l) * t + base).
  { induction l as [|i l IH]; intros base Hl; [simpl; lia|].
    cbn [fold_right]. rewrite IH by (intros; apply Hl; now right).
    destruct (Z.eqb_spec i (n - 1)) as [He|_];
      [exfalso; apply (Hl i); [now left | exact He]|].
    cbn [length]. rewrite Nat2Z.inj_succ. lia. }
  rewrite Hgen by (intros i Hi; apply range_In in Hi; lia).
  rewrite range_length, Z2Nat.id by lia. lia.
Qed.

Lemma total_area_app ws1 ws2 :
  total_area (ws1 ++ ws2) = total_area ws1 + total_area ws2.
Proof.
  unfold total_area. induction ws1 as [|w ws1 IH]; simpl; [reflexivity|].
  rewrite IH. lia.
Qed.

Lemma total_area_row (f : Z -> Z) (h : Z) (g : Z -> Window) l :
  (forall j, height (g j) = h) -> (forall j, width (g j) = f j) ->
  total_area (map g l) = h * fold_right (fun j acc => f j + acc) 0 l.
Proof.
  intros Hh Hw. unfold total_area, area.
  induction l as [|j l IH]; simpl; [lia|]. rewrite IH, Hh, Hw. lia.
Qed.

(** X6: the sizes [height * width] of the windows of a returned grid add up
    to the number of pixels of the raster,
    [dataset.height * dataset.width]. *)
Theorem create_windows_total_area ds nb_of_rows nb_of_cols ws :
  0 < nb_of_rows -> 0 < nb_of_cols ->
  create_windows ds nb_of_rows nb_of_cols = Ok ws ->
  total_area ws = Dataset.height ds * Dataset.width ds.
Proof.
  intros Hr Hc Hok.
  apply create_windows_returned in Hok as [-> _]; try assumption.
  unfold tiles.
  set (th := ceiling (Dataset.height ds) nb_of_rows).
  set (tw := ceiling (Dataset.width ds) nb_of_cols).
  set (hh := fun i => if i =? nb_of_rows - 1
                      then Dataset.height ds - i * th else th).
  set (ww := fun j => if j =? nb_of_cols - 1
                      then Dataset.width ds - j * tw else tw).
  assert (Hrows : forall l,
             total_area
               (flat_map (fun i => map (tile_at ds nb_of_rows nb_of_cols th tw i)
                                       (range nb_of_cols)) l)
             = fold_right (fun i acc => hh i + acc) 0 l * Dataset.width ds).
  { induction l as [|i l IH]; [reflexivity|].
    cbn [flat_map fold_right]. rewrite total_area_app, IH.
    rewrite (total_area_row ww (hh i)) by reflexivity.
    subst ww. cbv beta. rewrite (axis_lengths_sum _ _ tw Hc). lia. }
  rewrite Hrows. subst hh. cbv beta.
  now rewrite (axis_lengths_sum _ _ th Hr).
Qed.

Lemma create_windows_total_area_witness :
  total_area grid_10x10_3x3
  = Dataset.height raster_10x10 * Dataset.width raster_10x10.
Proof.
  apply (create_windows_total_area raster_10x10 3 3 grid_10x10_3x3);
    [lia | lia | vm_compute; reflexivity].
Defined.

(** X22: for positive counts [create_windows] returns a list exactly when
    the last grid row and the last grid column start inside the raster,
    [(n - 1) * ceil(size / n) <= size] on both axes. *)
Theorem create_windows_returns_iff_fit ds nb_of_rows nb_of_cols :
  0 < nb_of_rows -> 0 < nb_of_cols ->
  ((exists ws, create_windows ds nb_of_rows nb_of_cols = Ok ws)
   <-> last_offsets_fit ds nb_of_rows nb_of_cols).
Proof.
  intros Hr Hc. split.
  - intros [ws Hok]. now apply create_windows_returned in Hok.
  - intros Hfit. eexists. now apply create_windows_fit.
Qed.

Lemma create_windows_returns_iff_fit_witness :
  (exists ws, create_windows raster_5x5 4 4 = Ok ws)
  <-> last_offsets_fit raster_5x5 4 4.
Proof. apply (create_windows_returns_iff_fit raster_5x5 4 4); lia. Defined.

(** X23: for a negative count, the other one not being zero, the loops do
    not run and [create_windows] returns the empty list. *)
Theorem create_windows_negative_count ds nb_of_rows nb_of_cols :
  nb_of_rows <> 0 -> nb_of_cols <> 0 -> nb_of_rows < 0 \/ nb_of_cols < 0 ->
  create_windows ds nb_of_rows nb_of_cols = Ok [].
Proof.
  intros Hr Hc Hneg.
  now rewrite create_windows_tiles, tiles_negative_count by assumption.
Qed.

Lemma create_windows_negative_count_witness :
  create_windows raster_5x5 (-2) 3 = Ok [].
Proof.
  apply (create_windows_negative_count raster_5x5 (-2) 3);
    [lia | lia | left; lia].
Defined.

(** * Further properties of the statistics *)

Lemma is_minimum_unique m m' l l' :
  Permutation l l' -> is_minimum m l -> is_minimum m' l' -> m = m'.
Proof.
  intros HP [Hin Hle] [Hin' Hle'].
  apply (Permutation_in _ HP) in Hin.
  apply (Permutation_in _ (Permutation_sym HP)) in Hin'.
  specialize (Hle _ Hin'). specialize (Hle' _ Hin). lia.
Qed.

Lemma is_maximum_unique m m' l l' :
  Permutation l l' -> is_maximum m l -> is_maximum m' l' -> m = m'.
Proof.
  intros HP [Hin Hle] [Hin' Hle'].
  apply (Permutation_in _ HP) in Hin.
  apply (Permutation_in _ (Permutation_sym HP)) in Hin'.
  specialize (Hle _ Hin'). specialize (Hle' _ Hin). lia.
Qed.

Lemma sum_Permutation l l' : Permutation l l' -> sum l = sum l'.
Proof.
  unfold sum. induction 1; simpl; lia.
Qed.

(** X7: the statistics of a window depend only on which valid pixels it
    holds and how often, not on where they are: two windows whose valid
    pixels are a rearrangement of one another (another shape, another order,
    more or fewer nodata pixels) get the same statistics. *)
Theorem window_stats_rearranged array1 array2 nodata_value :
  Permutation (valid_pixels array1 nodata_value)
              (valid_pixels array2 nodata_value) ->
  window_stats array1 nodata_value = window_stats array2 nodata_value.
Proof.
  intros HP.
  destruct (valid_pixels array1 nodata_value) as [|x xs] eqn:H1;
    destruct (valid_pixels array2 nodata_value) as [|y ys] eqn:H2.
  - now rewrite !window_stats_none.
  - apply Permutation_nil in HP. discriminate.
  - apply Permutation_sym, Permutation_nil in HP. discriminate.
  - rewrite (window_stats_some _ _ x xs H1), (window_stats_some _ _ y ys H2).
    rewrite (is_minimum_unique _ _ _ _ HP
               (fold_min_is_minimum xs x) (fold_min_is_minimum ys y)).
    rewrite (is_maximum_unique _ _ _ _ HP
               (fold_max_is_maximum xs x) (fold_max_is_maximum ys y)).
    unfold mean_of.
    now rewrite (sum_Permutation _ _ HP), (Permutation_length HP).
Qed.

Lemma window_stats_rearranged_witness :
  window_stats [[255; 0]; [100; 255]] (Some (Fin (inject_Z 255)))
  = window_stats [[100; 255; 255; 255; 0]] (Some (Fin (inject_Z 255))).
Proof.
  apply window_stats_rearranged. simpl. apply perm_swap.
Defined.

(** ** Order of the three statistics *)

Lemma rint_between lo hi (y : Q) :
  (inject_Z lo <= y)%Q -> (y <= inject_Z hi)%Q -> lo <= np.rint y <= hi.
Proof.
  intros Hlo Hhi. unfold np.rint.
  pose proof (Qfloor_resp_le _ _ Hlo) as Hf1. rewrite Qfloor_Z in Hf1.
  pose proof (Qfloor_resp_le _ _ Hhi) as Hf2. rewrite Qfloor_Z in Hf2.
  pose proof (Qfloor_le y) as Hfy.
  assert (Hup : (inject_Z (Qfloor y) < y)%Q -> Qfloor y + 1 <= hi).
  { intros Hlt. assert (Hlt' : (inject_Z (Qfloor y) < inject_Z hi)%Q) by lra.
    rewrite <- Zlt_Qlt in Hlt'. lia. }
  destruct (Qcompare_spec (y - inject_Z (Qfloor y)) (1 # 2)) as [He | Hl | Hg].
  - destruct (Z.even (Qfloor y)); [lia|].
    split; [lia | apply Hup; lra].
  - lia.
  - split; [lia | apply Hup; lra].
Qed.

Lemma sum_between l m M :
  (forall x, In x l -> m <= x <= M) ->
  Z.of_nat (length l) * m <= sum l <= Z.of_nat (length l) * M.
Proof.
  intros Hl. unfold sum. induction l as [|x l IH]; [simpl; lia|].
  cbn [fold_right length]. rewrite Nat2Z.inj_succ.
  specialize (IH (fun y Hy => Hl y (or_intror Hy))).
  specialize (Hl x (or_introl eq_refl)). lia.
Qed.

Lemma mean_between l m M :
  l <> [] -> (forall x, In x l -> m <= x <= M) ->
  (inject_Z m <= mean_of l)%Q /\ (mean_of l <= inject_Z M)%Q.
Proof.
  intros Hne Hl. pose proof (sum_between l m M Hl) as [H1 H2].
  assert (Hn : 0 < Z.of_nat (length l)) by (destruct l; [congruence | simpl; lia]).
  assert (HnQ : (0 < inject_Z (Z.of_nat (length l)))%Q)
    by (change 0%Q with (inject_Z 0); now rewrite <- Zlt_Qlt).
  unfold mean_of. split.
  - apply Qle_shift_div_l; [exact HnQ|].
    rewrite <- inject_Z_mult, <- Zle_Qle. lia.
  - apply Qle_shift_div_r; [exact HnQ|].
    rewrite <- inject_Z_mult, <- Zle_Qle. lia.
Qed.

Lemma round_between m M (x : Q) :
  (inject_Z m <= x)%Q -> (x <= inject_Z M)%Q ->
  exists r, round (Fin x) 2 = Fin r /\
            (inject_Z m <= r)%Q /\ (r <= inject_Z M)%Q.
Proof.
  intros Hm HM. eexists. split; [reflexivity|].
  change (10 ^ 2) with 100.
  assert (H100 : (0 < inject_Z 100)%Q) by reflexivity.
  destruct (rint_between (m * 100) (M * 100) (x * inject_Z 100)) as [Hlo Hhi].
  - rewrite inject_Z_mult. apply Qmult_le_compat_r; [exact Hm | discriminate].
  - rewrite inject_Z_mult. apply Qmult_le_compat_r; [exact HM | discriminate].
  - split.
    + apply Qle_shift_div_l; [exact H100|].
      rewrite <- inject_Z_mult, <- Zle_Qle. exact Hlo.
    + apply Qle_shift_div_r; [exact H100|].
      rewrite <- inject_Z_mult, <- Zle_Qle. exact Hhi.
Qed.

(** X8: whenever the three statistics of a window are present, the
    rounded mean lies between the minimum and the maximum, and all three lie
    between any two bounds that hold for the valid pixels (so tree cover
    percentages from 0 to 100 give statistics from 0 to 100). *)
Theorem window_stats_ordered array nodata_value mn mx avg :
  window_stats array nodata_value
  = Ok (mkStats (Some (Fin mn)) (Some (Fin mx)) (Some (Fin avg))) ->
  (mn <= avg)%Q /\ (avg <= mx)%Q /\
  forall lo hi,
    (forall p, In p (valid_pixels array nodata_value) -> lo <= p <= hi) ->
    (inject_Z lo <= mn)%Q /\ (mx <= inject_Z hi)%Q.
Proof.
  intros Hs.
  destruct (valid_pixels array nodata_value) as [|x xs] eqn:Hv.
  { rewrite (window_stats_none _ _ Hv) in Hs. discriminate. }
  rewrite (window_stats_some _ _ x xs Hv) in Hs.
  destruct (fold_min_is_minimum xs x) as [Hmin_in Hmin].
  destruct (fold_max_is_maximum xs x) as [Hmax_in Hmax].
  destruct (mean_between (x :: xs) (fold_left Z.min xs x) (fold_left Z.max xs x))
    as [Hm1 Hm2]; [discriminate | intros y Hy; split; auto|].
  destruct (round_between _ _ _ Hm1 Hm2) as (r & Hr & Hr1 & Hr2).
  rewrite Hr in Hs. unfold of_int in Hs.
  injection Hs as <- <- <-.
  split; [exact Hr1|]. split; [exact Hr2|].
  intros lo hi Hb. rewrite <- !Zle_Qle.
  split; [apply (Hb _ Hmin_in) | apply (Hb _ Hmax_in)].
Qed.

Lemma window_stats_ordered_witness :
  (0 <= 5000 # 100)%Q /\ (5000 # 100 <= inject_Z 100)%Q /\
  forall lo hi,
    (forall p, In p (valid_pixels [[255; 255]; [0; 100]]
                                  (Some (Fin (inject_Z 255)))) ->
               lo <= p <= hi) ->
    (inject_Z lo <= inject_Z 0)%Q /\ (inject_Z 100 <= inject_Z hi)%Q.
Proof.
  exact (window_stats_ordered [[255; 255]; [0; 100]]
           (Some (Fin (inject_Z 255))) _ _ _ window_stats_mixed).
Defined.

(** X9: the three statistics of a window are absent together or present
    together; they are absent exactly when the window has no valid pixel,
    and a statistic that is present is a number, never NaN. *)
Theorem window_stats_all_or_nothing array nodata_value s :
  window_stats array nodata_value = Ok s ->
  (s = mkStats None None None /\ valid_pixels array nodata_value = []) \/
  ((exists mn mx avg, s = mkStats (Some (Fin mn)) (Some (Fin mx)) (Some (Fin avg)))
   /\ valid_pixels array nodata_value <> []).
Proof.
  intros Hs. destruct (valid_pixels array nodata_value) as [|x xs] eqn:Hv.
  - left. rewrite (window_stats_none _ _ Hv) in Hs. injection Hs as <-.
    split; reflexivity.
  - right. rewrite (window_stats_some _ _ x xs Hv) in Hs. injection Hs as <-.
    split; [|discriminate]. do 3 eexists. reflexivity.
Qed.

Lemma window_stats_all_or_nothing_witness :
  (mkStats (Some (of_int 0)) (Some (of_int 100)) (Some (Fin (5000 # 100)))
   = mkStats None None None /\
   valid_pixels [[255; 255]; [0; 100]] (Some (Fin (inject_Z 255))) = []) \/
  ((exists mn mx avg,
      mkStats (Some (of_int 0)) (Some (of_int 100)) (Some (Fin (5000 # 100)))
      = mkStats (Some (Fin mn)) (Some (Fin mx)) (Some (Fin avg)))
   /\ valid_pixels [[255; 255]; [0; 100]] (Some (Fin (inject_Z 255))) <> []).
Proof.
  exact (window_stats_all_or_nothing [[255; 255]; [0; 100]]
           (Some (Fin (inject_Z 255))) _ window_stats_mixed).
Defined.

(** * The inspection script *)

Lemma inspect_values_empty array v :
  concat array = [] -> inspect_values array v = Raise ValueError.
Proof.
  intros Hc. unfold inspect_values. rewrite where_nan_eq.
  unfold np.nanmin. now rewrite concat_masked, Hc.
Qed.

Lemma inspect_values_all_nodata array v :
  concat array <> [] -> valid_pixels array v = [] ->
  inspect_values array v = Ok (NaN, NaN, NaN).
Proof.
  intros Hc Hv. unfold inspect_values. rewrite where_nan_eq.
  unfold np.nanmin, np.nanmax, np.nanmean.
  rewrite finite_masked, concat_masked, Hv.
  destruct (concat array); [congruence | reflexivity].
Qed.

(** X10: the inspection script has no guard: on a window without elements
    its minimum raises [ValueError], and that is the only way its three
    values can fail. *)
Theorem inspect_values_raises_iff_empty array nodata_value e :
  inspect_values array nodata_value = Raise e
  <-> concat array = [] /\ e = ValueError.
Proof.
  split.
  - intros Hr. destruct (concat array) as [|p l] eqn:Hc.
    + rewrite (inspect_values_empty _ _ Hc) in Hr. injection Hr as <-.
      split; reflexivity.
    + exfalso.
      destruct (valid_pixels array nodata_value) as [|x xs] eqn:Hv.
      * rewrite inspect_values_all_nodata in Hr; congruence.
      * rewrite (inspect_values_some _ _ x xs Hv) in Hr. discriminate.
  - intros [Hc ->]. now apply inspect_values_empty.
Qed.

(** X11: on a window that has elements, all equal to the nodata value, the
    inspection script gets NaN for its three values (printed [nan]), where
    the statistics script writes [None]. *)
Theorem inspect_values_nan_when_all_nodata array nodata_value :
  concat array <> [] ->
  (forall p, In p (concat array) -> np.eq_scalar p nodata_value = true) ->
  inspect_values array nodata_value = Ok (NaN, NaN, NaN) /\
  str_float NaN = "nan"%string /\
  window_stats array nodata_value = Ok (mkStats None None None) /\
  str None = "None"%string.
Proof.
  intros Hc Hall.
  assert (Hv : valid_pixels array nodata_value = [])
    by (apply forallb_valid_pixels, forallb_forall; exact Hall).
  split; [now apply inspect_values_all_nodata|].
  split; [reflexivity|]. split; [now apply window_stats_none | reflexivity].
Qed.

Lemma inspect_values_nan_when_all_nodata_witness :
  inspect_values [[255; 255]] (Some (Fin (inject_Z 255))) = Ok (NaN, NaN, NaN) /\
  str_float NaN = "nan"%string /\
  window_stats [[255; 255]] (Some (Fin (inject_Z 255)))
  = Ok (mkStats None None None) /\
  str None = "None"%string.
Proof.
  apply (inspect_values_nan_when_all_nodata [[255; 255]]
           (Some (Fin (inject_Z 255)))).
  - discriminate.
  - intros p Hp. simpl in Hp. destruct Hp as [<- | [<- | []]]; reflexivity.
Defined.

(** X12: on a window with at least one valid pixel the two scripts compute
    the same minimum, maximum and rounded mean. *)
Theorem scripts_agree array nodata_value :
  (exists p, In p (concat array) /\ np.eq_scalar p nodata_value = false) ->
  exists mn mx avg,
    window_stats array nodata_value
    = Ok (mkStats (Some mn) (Some mx) (Some avg)) /\
    inspect_values array nodata_value = Ok (mn, mx, avg).
Proof.
  intros (p & Hin & Hp).
  destruct (valid_pixels array nodata_value) as [|x xs] eqn:Hv.
  - exfalso. assert (Hpv : In p (valid_pixels array nodata_value)).
    { apply filter_In. split; [exact Hin | now rewrite Hp]. }
    now rewrite Hv in Hpv.
  - do 3 eexists.
    rewrite (window_stats_some _ _ x xs Hv), (inspect_values_some _ _ x xs Hv).
    split; reflexivity.
Qed.

Lemma scripts_agree_witness :
  exists mn mx avg,
    window_stats [[255; 255]; [0; 100]] (Some (Fin (inject_Z 255)))
    = Ok (mkStats (Some mn) (Some mx) (Some avg)) /\
    inspect_values [[255; 255]; [0; 100]] (Some (Fin (inject_Z 255)))
    = Ok (mn, mx, avg).
Proof.
  apply scripts_agree. exists 0. split; [simpl; tauto | reflexivity].
Defined.

(** X13: a failing read never aborts the inspection script: it ends without
    values.  The script aborts only when the read succeeds with a window
    that has no element, and then with [ValueError]. *)
Theorem inspect_main_raises_iff ds e :
  inspect_main ds = Raise e
  <-> exists array,
        Dataset.read ds 1 inspect_window = Ok array /\
        concat array = [] /\ e = ValueError.
Proof.
  unfold inspect_main.
  destruct (Dataset.read ds 1 inspect_window) as [array | e'].
  - destruct (inspect_values array (Dataset.nodata ds)) as [v | e''] eqn:Hi;
      cbn [bind].
    + split; [discriminate|]. intros (a & Ha & Hc & ->).
      injection Ha as <-.
      rewrite (inspect_values_empty _ _ Hc) in Hi. discriminate.
    + assert (Hiff : concat array = [] /\ e'' = ValueError).
      { destruct (concat array) as [|p l] eqn:Hc.
        - rewrite (inspect_values_empty _ _ Hc) in Hi. injection Hi as <-.
          split; reflexivity.
        - exfalso.
          destruct (valid_pixels array (Dataset.nodata ds)) as [|x xs] eqn:Hv.
          + rewrite inspect_values_all_nodata in Hi; congruence.
          + rewrite (inspect_values_some _ _ x xs Hv) in Hi. discriminate. }
      destruct Hiff as [Hc ->]. split.
      * intros He. injection He as <-. exists array. repeat split; assumption.
      * intros (a & _ & _ & ->). reflexivity.
  - split; [discriminate|]. intros (a & Ha & _). discriminate.
Qed.

(** * Further properties of the loop and of the file *)

Lemma for_each_filter_readable ds nd windows st :
  for_each (loop_body ds nd) (filter (readable ds) windows) st
  = for_each (loop_body ds nd) windows st.
Proof.
  revert st. induction windows as [|w rest IH]; intros st; [reflexivity|].
  cbn [filter for_each]. unfold readable at 1, loop_body at 2.
  destruct (Dataset.read ds 1 w) as [array | e] eqn:Hr.
  - cbn [for_each]. unfold loop_body at 1. rewrite Hr.
    destruct (window_stats array nd); cbn [bind]; [apply IH | reflexivity].
  - cbn [bind]. apply IH.
Qed.

(** X15: windows whose read fails leave no trace in the file: the script
    writes exactly what it would write if they were not in the list. *)
Theorem write_stats_ignores_unreadable ds windows :
  write_stats ds windows = write_stats ds (filter (readable ds) windows).
Proof.
  unfold write_stats. now rewrite for_each_filter_readable.
Qed.

Lemma read_arrays_length ds windows :
  length (read_arrays ds windows) = length (filter (readable ds) windows).
Proof.
  unfold read_arrays, readable.
  induction windows as [|w rest IH]; [reflexivity|]. cbn [flat_map filter].
  destruct (Dataset.read ds 1 w); cbn [app length]; now rewrite IH.
Qed.

(** ** Characters of the file *)

Lemma count_char_app c (a b : string) :
  count_char c (a ++ b) = (count_char c a + count_char c b)%nat.
Proof.
  induction a as [|ch a IH]; [reflexivity|]. cbn [append count_char].
  rewrite IH. lia.
Qed.

Section Digits.
Variable c : ascii.
Hypothesis Hc : c = comma \/ c = linefeed \/ c = point.

Lemma count_char_uint d : count_char c (NilEmpty.string_of_uint d) = O.
Proof.
  induction d; cbn [NilEmpty.string_of_uint count_char];
    try rewrite IHd; destruct Hc as [-> | [-> | ->]]; reflexivity.
Qed.

Lemma count_char_str_int z : count_char c (str_int z) = O.
Proof.
  unfold str_int, NilZero.string_of_int, NilZero.string_of_uint.
  destruct (Z.to_int z) as [d | d]; destruct d;
    try apply (count_char_uint (Decimal.D0 _));
    try apply (count_char_uint (Decimal.D1 _));
    try apply (count_char_uint (Decimal.D2 _));
    try apply (count_char_uint (Decimal.D3 _));
    try apply (count_char_uint (Decimal.D4 _));
    try apply (count_char_uint (Decimal.D5 _));
    try apply (count_char_uint (Decimal.D6 _));
    try apply (count_char_uint (Decimal.D7 _));
    try apply (count_char_uint (Decimal.D8 _));
    try apply (count_char_uint (Decimal.D9 _));
    cbn [count_char];
    try rewrite (count_char_uint (Decimal.D0 _));
    try rewrite (count_char_uint (Decimal.D1 _));
    try rewrite (count_char_uint (Decimal.D2 _));
    try rewrite (count_char_uint (Decimal.D3 _));
    try rewrite (count_char_uint (Decimal.D4 _));
    try rewrite (count_char_uint (Decimal.D5 _));
    try rewrite (count_char_uint (Decimal.D6 _));
    try rewrite (count_char_uint (Decimal.D7 _));
    try rewrite (count_char_uint (Decimal.D8 _));
    try rewrite (count_char_uint (Decimal.D9 _));
    destruct Hc as [-> | [-> | ->]]; reflexivity.
Qed.

Lemma count_char_frac_digits fuel r d : count_char c (frac_digits fuel r d) = O.
Proof.
  revert r. induction fuel as [|fuel IH]; intros r; [reflexivity|].
  cbn [frac_digits]. destruct (r =? 0); [reflexivity|].
  now rewrite count_char_app, count_char_str_int, IH.
Qed.
End Digits.

Lemma count_char_str c v :
  c = comma \/ c = linefeed -> count_char c (str v) = O.
Proof.
  intros Hc.
  destruct v as [[|q]|]; cbn [str str_float].
  - destruct Hc as [-> | ->]; reflexivity.
  - rewrite !count_char_app, count_char_str_int by tauto.
    assert (H1 : count_char c (if Qnum q <? 0 then "-"%string else ""%string) = O)
      by (destruct (Qnum q <? 0); destruct Hc as [-> | ->]; reflexivity).
    assert (H2 : count_char c "." = O)
      by (destruct Hc as [-> | ->]; reflexivity).
    assert (H3 : count_char c
                   (if Z.abs (Qnum q) mod Z.pos (Qden q) =? 0 then "0"%string
                    else frac_digits 17 (Z.abs (Qnum q) mod Z.pos (Qden q))
                           (Z.pos (Qden q))) = O).
    { destruct (_ =? 0); [|apply count_char_frac_digits; tauto].
      destruct Hc as [-> | ->]; reflexivity. }
    rewrite H1, H2, H3. reflexivity.
  - destruct Hc as [-> | ->]; reflexivity.
Qed.


(** X16: whatever the id and the statistics, the line written for a window
    has exactly four comma-separated fields and one line feed, its last
    character. *)
Theorem csv_row_fields k s :
  count_char comma (csv_row k s) = 3%nat /\
  exists body,
    csv_row k s = (body ++ newline)%string /\
    count_char linefeed body = O.
Proof.
  unfold csv_row. split.
  - rewrite !count_char_app, count_char_str_int, !count_char_str
      by auto. reflexivity.
  - exists ("array_" ++ str_int k ++ "," ++ str (min_cover s) ++ ","
            ++ str (max_cover s) ++ "," ++ str (avg_cover s))%string.
    split; [now rewrite !append_assoc|].
    rewrite !count_char_app, count_char_str_int, !count_char_str
      by auto. reflexivity.
Qed.

Lemma count_char_rows_from c k stats :
  c = comma \/ c = linefeed ->
  count_char c (rows_from k stats)
  = (length stats * (if Ascii.eqb c comma then 3 else 1))%nat.
Proof.
  intros Hc. revert k. induction stats as [|s rest IH]; intros k;
    [reflexivity|].
  cbn [rows_from length].
  rewrite !count_char_app, count_char_str_int, !count_char_str, IH by tauto.
  destruct Hc as [-> | ->]; cbn; lia.
Qed.

(** X17: the file written by the script has one line for the header and
    one for each window whose read succeeds, and every line has three
    commas: it holds [1 + r] line feeds and [3 * (1 + r)] commas, where [r]
    is the number of readable windows. *)
Theorem write_stats_line_count ds windows :
  exists contents,
    write_stats ds windows = Ok contents /\
    count_char linefeed contents
    = S (length (filter (readable ds) windows)) /\
    count_char comma contents
    = (3 * S (length (filter (readable ds) windows)))%nat.
Proof.
  destruct (write_stats_rows ds windows) as (stats & HF & Hw).
  eexists. split; [exact Hw|].
  rewrite <- read_arrays_length, (Forall2_length HF).
  rewrite !count_char_app, !count_char_rows_from by (auto).
  split; cbn; lia.
Qed.

(** What the script writes when no window can be read: the header alone. *)
Example write_stats_5x5 :
  (w <- create_windows raster_5x5 2 2 ;; write_stats raster_5x5 w)
  = Ok ("array,minimum_cover,maximum_cover,average_cover" ++ newline)%string.
Proof. vm_compute. reflexivity. Qed.

Lemma read_arrays_filter ds windows :
  read_arrays ds (filter (readable ds) windows) = read_arrays ds windows.
Proof.
  unfold read_arrays. induction windows as [|w rest IH]; [reflexivity|].
  cbn [filter flat_map]. unfold readable at 1.
  destruct (Dataset.read ds 1 w) as [array | e] eqn:Hr.
  - cbn [flat_map]. now rewrite Hr, IH.
  - exact IH.
Qed.

Lemma filter_readable_ok ds windows w :
  In w (filter (readable ds) windows) ->
  exists array, Dataset.read ds 1 w = Ok array.
Proof.
  intros Hin. apply filter_In in Hin as [_ Hr]. unfold readable in Hr.
  destruct (Dataset.read ds 1 w) as [array | e]; [now exists array | discriminate].
Qed.

(** X18: for any pattern of failing reads, the loop ends normally, the id
    has advanced by the number of windows whose read succeeded, and the
    file has grown by one line for each of those windows, in their order,
    numbered consecutively from the starting id. *)
Theorem loop_writes_readable_windows ds nodata_value windows st :
  exists stats,
    Forall2 (fun w s => exists array,
               Dataset.read ds 1 w = Ok array /\
               window_stats array nodata_value = Ok s)
            (filter (readable ds) windows) stats /\
    for_each (loop_body ds nodata_value) windows st
    = Ok (mkState
            (id st + Z.of_nat (length (filter (readable ds) windows)))
            (file st ++ rows_from (id st) stats)%string).
Proof.
  destruct (for_each_rows ds nodata_value windows st) as (stats & HF & Hloop).
  rewrite <- read_arrays_filter in HF.
  apply (read_arrays_all_ok _ _ _ _ (filter_readable_ok ds windows)) in HF.
  exists stats. split; [exact HF|].
  now rewrite (Forall2_length HF).
Qed.

(** X19: on a raster of at least 56 x 56 pixels the script ends normally:
    it cuts exactly 64 windows and writes the header and one line for each
    window it could read, at most 64. *)
Theorem main_line_count ds :
  56 <= Dataset.height ds -> 56 <= Dataset.width ds ->
  exists windows contents,
    create_windows ds 8 8 = Ok windows /\
    length windows = 64%nat /\
    main ds = Ok contents /\
    count_char linefeed contents = S (length (filter (readable ds) windows)) /\
    (length (filter (readable ds) windows) <= 64)%nat.
Proof.
  intros Hh Hw.
  assert (Hfit : last_offsets_fit ds 8 8).
  { split; apply Z.lt_le_incl, last_offset_inside; lia. }
  pose proof (create_windows_fit ds 8 8 ltac:(lia) ltac:(lia) Hfit) as Hcw.
  set (windows := tiles ds 8 8 _ _) in Hcw.
  assert (Hlen : length windows = 64%nat).
  { pose proof (grid_length ds 8 8 (ceiling (Dataset.height ds) 8)
                  (ceiling (Dataset.width ds) 8)) as Hl.
    fold windows in Hl. lia. }
  destruct (write_stats_rows ds windows) as (stats & HF & Hws).
  exists windows. eexists. split; [exact Hcw|]. split; [exact Hlen|].
  split; [unfold main; rewrite Hcw; exact Hws|]. split.
  - rewrite <- read_arrays_length, (Forall2_length HF).
    rewrite !count_char_app, count_char_rows_from by (now right).
    cbn. lia.
  - rewrite <- Hlen. apply filter_length_le.
Qed.

Lemma main_line_count_witness :
  exists windows contents,
    create_windows raster_64x64 8 8 = Ok windows /\
    length windows = 64%nat /\
    main raster_64x64 = Ok contents /\
    count_char linefeed contents
    = S (length (filter (readable raster_64x64) windows)) /\
    (length (filter (readable raster_64x64) windows) <= 64)%nat.
Proof.
  apply (main_line_count raster_64x64); unfold Dataset.height, Dataset.width;
    simpl; lia.
Defined.

(** ** The digits of the mean *)

Lemma str_int_digit d : 0 <= d <= 9 -> String.length (str_int d) = 1%nat.
Proof.
  intros Hd.
  assert (H : d = 0 \/ d = 1 \/ d = 2 \/ d = 3 \/ d = 4 \/ d = 5 \/ d = 6
              \/ d = 7 \/ d = 8 \/ d = 9) by lia.
  repeat (destruct H as [-> | H]; [reflexivity|]). now subst.
Qed.

(** The expansion of [r / 100], for [0 < r < 100], has one or two digits. *)
Lemma frac_digits_hundredths fuel r :
  0 < r < 100 ->
  (1 <= String.length (frac_digits (S (S (S fuel))) r 100) <= 2)%nat.
Proof.
  intros Hr. cbn [frac_digits].
  destruct (Z.eqb_spec r 0) as [|_]; [lia|].
  assert (Hd1 : 0 <= r * 10 / 100 <= 9).
  { split; [apply Z.div_pos; lia|].
    assert (r * 10 / 100 < 10) by (apply Z.div_lt_upper_bound; lia). lia. }
  pose proof (str_int_digit _ Hd1) as Hl1.
  destruct (str_int (r * 10 / 100)) as [|c1 [|c2 rest]]; try discriminate.
  cbn [append]. destruct (Z.eqb_spec (r * 10 mod 100) 0) as [|Hne];
    [simpl; lia|].
  assert (Hr1 : 0 <= r * 10 mod 100 < 100) by (apply Z.mod_pos_bound; lia).
  assert (Hd2 : 0 <= r * 10 mod 100 * 10 / 100 <= 9).
  { split; [apply Z.div_pos; lia|].
    assert (r * 10 mod 100 * 10 / 100 < 10)
      by (apply Z.div_lt_upper_bound; lia). lia. }
  pose proof (str_int_digit _ Hd2) as Hl2.
  destruct (str_int (r * 10 mod 100 * 10 / 100)) as [|c3 [|c4 rest]];
    try discriminate.
  assert (Hz : r * 10 mod 100 * 10 mod 100 = 0).
  { pose proof (Z.div_mod r 10 ltac:(lia)) as Hdm.
    assert (Hten : r * 10 mod 100 = r mod 10 * 10).
    { symmetry. apply (Z.mod_unique_pos _ _ (r / 10)).
      - pose proof (Z.mod_pos_bound r 10 ltac:(lia)). lia.
      - lia. }
    rewrite Hten.
    replace (r mod 10 * 10 * 10) with (r mod 10 * 100) by lia.
    apply Z.mod_mul. lia. }
  rewrite Hz. simpl. lia.
Qed.

(** X20: the mean is written with one or two digits after the point: the
    string of a value rounded by [round(.., 2)] is a part without a point,
    then a point, then one or two characters. *)
Theorem mean_written_with_two_decimals (x : Q) :
  exists whole frac,
    str_float (round (Fin x) 2) = (whole ++ "." ++ frac)%string /\
    count_char point whole = O /\
    (1 <= String.length frac <= 2)%nat.
Proof.
  cbn [round]. change (10 ^ 2) with 100.
  set (k := np.rint (x * inject_Z 100)).
  unfold str_float, Qdiv, Qinv, Qmult, inject_Z. cbn [Qnum Qden].
  change (Z.pos (1 * 100)) with 100. rewrite Z.mul_1_r.
  eexists. eexists. split; [rewrite <- append_assoc; reflexivity|]. split.
  - rewrite count_char_app, count_char_str_int by tauto.
    destruct (k <? 0); reflexivity.
  - destruct (Z.eqb_spec (Z.abs k mod 100) 0) as [|Hne]; [simpl; lia|].
    apply (frac_digits_hundredths 14).
    pose proof (Z.mod_pos_bound (Z.abs k) 100 ltac:(lia)). lia.
Qed.

(** ** Ids can be read back *)

Lemma str_int_inj a b : str_int a = str_int b -> a = b.
Proof.
  unfold str_int. intros Heq.
  assert (Hok : forall z, Z.to_int z <> Decimal.Pos Decimal.Nil /\
                          Z.to_int z <> Decimal.Neg Decimal.Nil).
  { intros [|p|p]; split; try discriminate; simpl; intros Hn;
      injection Hn as Hn; exact (DecimalPos.Unsigned.to_uint_nonnil p Hn). }
  apply DecimalZ.to_int_inj.
  destruct (Hok a) as [Ha1 Ha2]. destruct (Hok b) as [Hb1 Hb2].
  pose proof (NilZero.isi _ Ha1 Ha2) as Hia.
  pose proof (NilZero.isi _ Hb1 Hb2) as Hib.
  rewrite Heq in Hia. congruence.
Qed.

(** Two strings that agree up to and including their first comma. *)
Lemma first_field_inj (s1 s2 r1 r2 : string) :
  count_char comma s1 = O -> count_char comma s2 = O ->
  (s1 ++ "," ++ r1 = s2 ++ "," ++ r2)%string -> s1 = s2.
Proof.
  revert s2. induction s1 as [|c1 s1 IH]; intros [|c2 s2] H1 H2 Heq;
    cbn [append count_char] in *.
  - reflexivity.
  - injection Heq as Hc _. subst c2. discriminate.
  - injection Heq as Hc _. subst c1. discriminate.
  - injection Heq as -> Heq. f_equal. apply IH; try assumption.
    + destruct (Ascii.eqb c2 comma); [discriminate | exact H1].
    + destruct (Ascii.eqb c2 comma); [discriminate | exact H2].
Qed.

(** X21: the id of a line can be recovered from the line: two lines written
    for different ids differ, whatever their statistics. *)
Theorem csv_row_id_distinct k1 k2 s1 s2 :
  k1 <> k2 -> csv_row k1 s1 <> csv_row k2 s2.
Proof.
  unfold csv_row. intros Hne Heq. apply Hne, str_int_inj.
  assert (Hpre : forall a b : string,
             ("array_" ++ a = "array_" ++ b)%string -> a = b)
    by (intros a b Hab; cbn [append] in Hab; now injection Hab).
  apply Hpre in Heq.
  eapply first_field_inj; [| |exact Heq];
    apply count_char_str_int; tauto.
Qed.

Lemma csv_row_id_distinct_witness :
  csv_row 1 (mkStats None None None) <> csv_row 2 (mkStats None None None).
Proof.
  apply (csv_row_id_distinct 1 2). discriminate.
Defined.
